(** * SecureJoinVFS (util/join.go): a shallow embedding and its properties.

    The resolver joins an untrusted path to a trusted root, consulting a
    VFS component by component and expanding the symbolic links it meets.
    Go strings are byte strings and are embedded as [string]; the counter
    [n] is a Go [int] embedded as [Z] (it never leaves [0 .. 256]).

    The file has four parts: the model of the program, the vocabulary the
    properties are stated in, the loops (whose definitions rest on the
    termination argument), and the lemmas and theorems. *)

From Stdlib Require Import String Ascii List ZArith Lia Bool Arith.

From Equations Require Import Equations.

Import ListNotations.

Local Open Scope string_scope.

Local Open Scope Z_scope.

(** * Part I: the program *)

(** ** The parts of the Go library the function uses *)

Module strings.

(** [strings.IndexRune s r] for an ASCII rune: byte index of the first
    occurrence, or [-1]. *)
Fixpoint IndexRune (s : string) (r : ascii) : Z :=
  match s with
  | EmptyString => -1
  | String c s' =>
      if Ascii.eqb c r then 0
      else let i := IndexRune s' r in
           if i =? -1 then -1 else i + 1
  end.

(** [strings.HasPrefix s prefix]. *)
Definition HasPrefix (s prefix : string) : bool := String.prefix prefix s.

(** The slice expressions [s[:i]] and [s[i:]], for [0 <= i <= len(s)]. *)
Fixpoint take (k : nat) (s : string) : string :=
  match k, s with
  | S k', String c s' => String c (take k' s')
  | _, _ => EmptyString
  end.

Fixpoint drop (k : nat) (s : string) : string :=
  match k, s with
  | S k', String _ s' => drop k' s'
  | _, _ => s
  end.

Definition slice_to (s : string) (i : Z) : string := take (Z.to_nat i) s.

Definition slice_from (s : string) (i : Z) : string := drop (Z.to_nat i) s.

(** [strings.Split s "/"]-style splitting on one separator byte. *)
Fixpoint Split (s : string) (sep : ascii) : list string :=
  match s with
  | EmptyString => [EmptyString]
  | String c s' =>
      if Ascii.eqb c sep then EmptyString :: Split s' sep
      else match Split s' sep with
           | h :: t => String c h :: t
           | [] => [String c EmptyString]
           end
  end.

(** [strings.Join elems sep]. *)
Definition Join (elems : list string) (sep : string) : string :=
  String.concat sep elems.

End strings.

Module os.

(** [os.IsPathSeparator] on Unix. *)
Definition IsPathSeparator (c : ascii) : bool := Ascii.eqb c "/".

(** [os.ModeSymlink], bit 27 of a [FileMode]. *)
Definition ModeSymlink : Z := Z.shiftl 1 27.

Definition ModeDir : Z := Z.shiftl 1 31.

(** What the function reads of an [os.FileInfo]: its two methods
    [Mode()] and [IsDir()], which an implementation answers separately. *)
Record FileInfo : Type := { Mode : Z; IsDir : bool }.

End os.

Module filepath.

Definition Separator : ascii := "/"%char.
Definition SeparatorString : string := String Separator EmptyString.

(** [filepath.IsAbs] on Unix. *)
Definition IsAbs (path : string) : bool := strings.HasPrefix path "/".

(** [filepath.Clean] on Unix (no volume names), as path/filepath writes it:
    one pass over the bytes of the path, from index [r] on, into a buffer.
    The buffer is [out], last byte written first; its length is the write
    index [out.w]; [dotdot] is the index below which [..] must not
    backtrack.  [rest] is what is left of the path from [r] on. *)

(** [r == n || os.IsPathSeparator(path[r])]. *)
Definition element_ends (rest : string) : bool :=
  match rest with
  | EmptyString => true
  | String c _ => os.IsPathSeparator c
  end.

(** [for out.w > dotdot && !os.IsPathSeparator(out.index(out.w)) { out.w-- }],
    where [dropped] is the byte at index [out.w]. *)
Fixpoint backtrack (dropped : ascii) (out : list ascii) (dotdot : nat)
  : list ascii :=
  match out with
  | [] => []
  | c :: out' =>
      if Nat.ltb dotdot (List.length out) && negb (os.IsPathSeparator dropped)
      then backtrack c out' dotdot
      else out
  end.

(** [for ; r < n && !os.IsPathSeparator(path[r]); r++ { out.append(path[r]) }]:
    the buffer with the element written, and what follows the element. *)
Fixpoint copy_element (rest : string) (out : list ascii)
  : list ascii * string :=
  match rest with
  | EmptyString => (out, rest)
  | String c rest' =>
      if os.IsPathSeparator c then (out, rest)
      else copy_element rest' (c :: out)
  end.

(** The slash that goes before a real element, when one is needed. *)
Definition add_slash (rooted : bool) (out : list ascii) : list ascii :=
  if (rooted && negb (List.length out =? 1)%nat)
     || (negb rooted && negb (List.length out =? 0)%nat)
  then "/"%char :: out else out.

(** The loop [for r < n] with its [switch], for at most [fuel] turns; every
    turn reads at least one byte. *)
Fixpoint scan_bytes (fuel : nat) (rooted : bool) (rest : string)
    (out : list ascii) (dotdot : nat) : list ascii :=
  match fuel with
  | O => out
  | S fuel' =>
      match rest with
      | EmptyString => out
      | String c rest1 =>
          if os.IsPathSeparator c then
            (* empty path element *)
            scan_bytes fuel' rooted rest1 out dotdot
          else if Ascii.eqb c "." && element_ends rest1 then
            (* . element *)
            scan_bytes fuel' rooted rest1 out dotdot
          else
            match rest1 with
            | String c1 rest2 =>
                if Ascii.eqb c "." && Ascii.eqb c1 "." && element_ends rest2
                then
                  (* .. element: remove to last separator *)
                  match out with
                  | d :: out' =>
                      if Nat.ltb dotdot (List.length out) then
                        (* can backtrack *)
                        scan_bytes fuel' rooted rest2
                          (backtrack d out' dotdot) dotdot
                      else if negb rooted then
                        (* cannot backtrack, but not rooted: append .. *)
                        let out2 := "."%char :: "."%char :: "/"%char :: out in
                        scan_bytes fuel' rooted rest2 out2 (List.length out2)
                      else scan_bytes fuel' rooted rest2 out dotdot
                  | [] =>
                      if negb rooted then
                        scan_bytes fuel' rooted rest2 ["."%char; "."%char] 2
                      else scan_bytes fuel' rooted rest2 out dotdot
                  end
                else
                  (* real path element *)
                  let '(out2, rest') :=
                    copy_element rest (add_slash rooted out) in
                  scan_bytes fuel' rooted rest' out2 dotdot
            | EmptyString =>
                (* real path element *)
                let '(out2, rest') :=
                  copy_element rest (add_slash rooted out) in
                scan_bytes fuel' rooted rest' out2 dotdot
            end
      end
  end.

Definition Clean (path : string) : string :=
  match path with
  | EmptyString => "."
  | String c rest =>
      let rooted := os.IsPathSeparator c in
      let out :=
        if rooted
        then scan_bytes (S (String.length path)) rooted rest ["/"%char] 1
        else scan_bytes (S (String.length path)) rooted path [] 0 in
      match out with
      | [] => "."
      | _ => string_of_list_ascii (rev out)
      end
  end.

(** [filepath.Join] of two elements: empty elements are ignored, the rest
    is joined with the separator and cleaned. *)
Definition Join (a b : string) : string :=
  match a, b with
  | EmptyString, EmptyString => EmptyString
  | EmptyString, _ => Clean b
  | _, EmptyString => Clean a
  | _, _ => Clean (a ++ "/" ++ b)
  end.

End filepath.

(** ** Errors *)

Module syscall.

(** [syscall.Errno] values on Linux. *)
Definition EPERM : Z := 1.

Definition ENOENT : Z := 2.

Definition EIO : Z := 5.

Definition EACCES : Z := 13.

Definition ENOTDIR : Z := 20.

Definition ELOOP : Z := 40.

End syscall.

(** The error values that reach the function: the [os] sentinels, a
    [syscall.Errno], an [*os.PathError] wrapping another error, and an
    opaque error made by [errors.New]. *)
Inductive error : Type :=
| ErrNotExist
| ErrPermission
| Errno (e : Z)
| PathError (Op Path : string) (Err : error)
| errorString (s : string).

Definition error_eq_dec (a b : error) : {a = b} + {a <> b}.
Proof.
  decide equality; try apply string_dec; apply Z.eq_dec.
Defined.

Module errors.

(** The [Is] method of [syscall.Errno]. *)
Definition Errno_Is (e : Z) (target : error) : bool :=
  match target with
  | ErrPermission => (e =? syscall.EACCES) || (e =? syscall.EPERM)
  | ErrNotExist => e =? syscall.ENOENT
  | _ => false
  end.

(** [errors.Is]: walk the [Unwrap] chain, comparing each error with the
    target and asking its [Is] method. *)
Fixpoint Is (err target : error) : bool :=
  if error_eq_dec err target then true
  else match err with
       | Errno e => Errno_Is e target
       | PathError _ _ inner => Is inner target
       | _ => false
       end.

End errors.

(** [IsNotExist]: the path, or one of its components, does not exist.  The
    argument is a non-nil error; on [nil] the Go function answers false. *)
Definition IsNotExist (err : error) : bool :=
  errors.Is err ErrNotExist
  || errors.Is err (Errno syscall.ENOTDIR)
  || errors.Is err (Errno syscall.ENOENT).

(** A Go result pair [(value, error)] of which exactly one is meaningful. *)
Inductive result (A : Type) : Type :=
| Ok (a : A)
| Err (e : error).

Arguments Ok {A} a.

Arguments Err {A} e.

(** ** The VFS interface *)

(** A VFS answers by name: the file system is taken as it stands during the
    call (the guarantees of the function are stated for that case only).
    [Lstat] answers with a file info or with an error, never with both. *)
Record VFS : Type := {
  Lstat : string -> result os.FileInfo;
  Readlink : string -> result string
}.

(** ** The resolver *)

(** The mutable locals of [SecureJoinVFS]: the buffer [path], the unparsed
    [unsafePath] and the dereference counter [n]. *)
Record state : Type := {
  path : string;
  unsafePath : string;
  n : Z
}.

(** What one pass through the loop body does: go round again with new
    locals, or leave the function with its result. *)
Inductive flow : Type :=
| Continue (st : state)
| Return (r : result string).

Section Resolver.

Variable root : string.
Variable vfs : VFS.

(** The [ELOOP] error of the depth check; [unsafePath] is the local
    variable at the time of the check. *)
Definition loop_error (unsafePath : string) : error :=
  PathError "SecureJoin" (root ++ "/" ++ unsafePath) (Errno syscall.ELOOP).

(** The next path component [p] and what is left after it. *)
Definition next_component (unsafePath : string) : string * string :=
  let i := strings.IndexRune unsafePath filepath.Separator in
  if i =? -1 then (unsafePath, "")
  else (strings.slice_to unsafePath i, strings.slice_from unsafePath (i + 1)).

(** The body of the [for] loop, entered with [unsafePath <> ""]. *)
Definition body (st : state) : flow :=
  if n st >? 255 then Return (Err (loop_error (unsafePath st)))
  else
    let '(p, rest) := next_component (unsafePath st) in
    let cleanP := filepath.Clean (filepath.SeparatorString ++ path st ++ p) in
    if (cleanP =? filepath.SeparatorString)%string then
      Continue {| path := ""; unsafePath := rest; n := n st |}
    else
      let fullP := filepath.Clean (root ++ cleanP) in
      let accept :=
        Continue {| path := path st ++ p ++ filepath.SeparatorString;
                    unsafePath := rest; n := n st |} in
      match Lstat vfs fullP with
      | Err err => if IsNotExist err then accept else Return (Err err)
      | Ok fi =>
          if Z.land (os.Mode fi) os.ModeSymlink =? 0 then accept
          else
            let n' := n st + 1 in
            match Readlink vfs fullP with
            | Err err => Return (Err err)
            | Ok dest =>
                if filepath.IsAbs dest then
                  if negb (os.IsDir fi)
                     && strings.HasPrefix dest (root ++ filepath.SeparatorString)
                  then Return (Ok (filepath.Clean dest))
                  else Continue {| path := "";
                                   unsafePath := dest ++ filepath.SeparatorString ++ rest;
                                   n := n' |}
                else Continue {| path := path st;
                                 unsafePath := dest ++ filepath.SeparatorString ++ rest;
                                 n := n' |}
            end
      end.

(** The code after the loop. *)
Definition epilogue (st : state) : result string :=
  let fullP := filepath.Clean (filepath.SeparatorString ++ path st) in
  Ok (filepath.Clean (root ++ fullP)).

(** One turn of the loop: its condition, then its body. *)
Definition turn (st : state) : flow :=
  if (unsafePath st =? "")%string then Return (epilogue st) else body st.

(** The loop run with a bound on the number of turns. *)
Fixpoint loop_fuel (fuel : nat) (st : state) : option (result string) :=
  match fuel with
  | O => None
  | S fuel' =>
      match turn st with
      | Return r => Some r
      | Continue st' => loop_fuel fuel' st'
      end
  end.

(** The termination measure: dereferences still allowed, then bytes of
    [unsafePath] still to parse. *)
Definition measure (st : state) : nat * nat :=
  (Z.to_nat (256 - n st), String.length (unsafePath st)).

End Resolver.

(** The locals on entry to the loop. *)
Definition init (unsafePath : string) : state :=
  {| path := ""; unsafePath := unsafePath; n := 0 |}.

(** The order on measures: fewer dereferences allowed, or as many and a
    shorter [unsafePath]. *)
Definition measure_lt : nat * nat -> nat * nat -> Prop :=
  lexprod nat nat lt lt.

(** A value together with the equation that names it, so that the loop can
    remember which way a turn went. *)
Definition inspect {A : Type} (a : A) : {b : A | a = b} := exist _ a eq_refl.

(** ** The function without the [IsDir] test *)

Section NoIsDir.

Variable root : string.
Variable vfs : VFS.

(** The variant that C10 compares the function with: the loop body with
    [!fi.IsDir() &&] struck from the condition of the short cut, and
    nothing else changed. *)
Definition body_no_IsDir (st : state) : flow :=
  if n st >? 255 then Return (Err (loop_error root (unsafePath st)))
  else
    let '(p, rest) := next_component (unsafePath st) in
    let cleanP := filepath.Clean (filepath.SeparatorString ++ path st ++ p) in
    if (cleanP =? filepath.SeparatorString)%string then
      Continue {| path := ""; unsafePath := rest; n := n st |}
    else
      let fullP := filepath.Clean (root ++ cleanP) in
      let accept :=
        Continue {| path := path st ++ p ++ filepath.SeparatorString;
                    unsafePath := rest; n := n st |} in
      match Lstat vfs fullP with
      | Err err => if IsNotExist err then accept else Return (Err err)
      | Ok fi =>
          if Z.land (os.Mode fi) os.ModeSymlink =? 0 then accept
          else
            let n' := n st + 1 in
            match Readlink vfs fullP with
            | Err err => Return (Err err)
            | Ok dest =>
                if filepath.IsAbs dest then
                  if strings.HasPrefix dest (root ++ filepath.SeparatorString)
                  then Return (Ok (filepath.Clean dest))
                  else Continue {| path := "";
                                   unsafePath := dest ++ filepath.SeparatorString ++ rest;
                                   n := n' |}
                else Continue {| path := path st;
                                 unsafePath := dest ++ filepath.SeparatorString ++ rest;
                                 n := n' |}
            end
      end.

Definition turn_no_IsDir (st : state) : flow :=
  if (unsafePath st =? "")%string then Return (epilogue root st)
  else body_no_IsDir st.

End NoIsDir.

(** * Part II: the vocabulary of the properties *)

(** ** What a turn examines *)

(** The component [p] of a turn, what is left after it, the cleaned scoped
    path [cleanP] and the path [fullP] handed to the VFS. *)
Definition component (st : state) : string :=
  fst (next_component (unsafePath st)).

Definition remainder (st : state) : string :=
  snd (next_component (unsafePath st)).

Definition cleanP (st : state) : string :=
  filepath.Clean (filepath.SeparatorString ++ path st ++ component st).

Definition fullP (root : string) (st : state) : string :=
  filepath.Clean (root ++ cleanP st).

(** A turn examines an entry when the loop is entered, the depth check
    passes and the scoped path is not the root itself. *)
Definition examines (st : state) : bool :=
  negb (unsafePath st =? "")%string
  && negb (n st >? 255)
  && negb (cleanP st =? filepath.SeparatorString)%string.

(** The state after a component is accepted, and after a link is expanded. *)
Definition accepted (st : state) : state :=
  {| path := path st ++ component st ++ filepath.SeparatorString;
     unsafePath := remainder st;
     n := n st |}.

Definition expanded (keep : bool) (dest : string) (st : state) : state :=
  {| path := if keep then path st else "";
     unsafePath := dest ++ filepath.SeparatorString ++ remainder st;
     n := n st + 1 |}.

Definition is_symlink (fi : os.FileInfo) : bool :=
  negb (Z.land (os.Mode fi) os.ModeSymlink =? 0).

(** A turn dereferences a link when it examines an entry that [Lstat]
    reports as a symlink: these are the turns that reach [n++]. *)
Definition dereferences (root : string) (vfs : VFS) (st : state) : bool :=
  examines st
  && match Lstat vfs (fullP root st) with
     | Ok fi => is_symlink fi
     | Err _ => false
     end.

(** The depth check at the head of the loop body fires. *)
Definition depth_check_fails (st : state) : bool :=
  negb (unsafePath st =? "")%string && (n st >? 255).

Definition one_if (b : bool) : nat := if b then 1%nat else 0%nat.

(** The name a turn hands to [Lstat], when it hands one. *)
Definition lookup_of (root : string) (st : state) : list string :=
  if examines st then [fullP root st] else [].

(** The states a run goes through: [steps st st'] when the loop started
    with locals [st] comes to the head of the loop with locals [st']. *)
Inductive steps (root : string) (vfs : VFS) : state -> state -> Prop :=
| steps_refl st : steps root vfs st st
| steps_turn st st' st'' :
    turn root vfs st = Continue st' ->
    steps root vfs st' st'' ->
    steps root vfs st st''.

(** Running a number of turns, for as long as the loop goes round. *)
Fixpoint run_turns (root : string) (vfs : VFS) (k : nat) (st : state)
  : option state :=
  match k with
  | O => Some st
  | S k' =>
      match turn root vfs st with
      | Continue st' => run_turns root vfs k' st'
      | Return _ => None
      end
  end.

(** [Lstat] of [name] does not report an existing symlink: it reports an
    entry that is no symlink, or an error of the not-found class. *)
Definition no_symlink_at (vfs : VFS) (name : string) : Prop :=
  match Lstat vfs name with
  | Ok fi => is_symlink fi = false
  | Err err => IsNotExist err = true
  end.

(** A VFS that never calls a symlink a directory, as [os.Lstat] never does. *)
Definition symlinks_not_dirs (vfs : VFS) : Prop :=
  forall name fi,
    Lstat vfs name = Ok fi -> is_symlink fi = true -> os.IsDir fi = false.

(** The VFS that answers as [vfs] does, except that no entry is a directory. *)
Definition never_dir (vfs : VFS) : VFS :=
  {| Lstat := fun name =>
       match Lstat vfs name with
       | Ok fi => Ok {| os.Mode := os.Mode fi; os.IsDir := false |}
       | Err err => Err err
       end;
     Readlink := Readlink vfs |}.

(** ** Elements of a path and the scan of [Clean] *)

(** [Clean] read element by element.  [out] holds the elements written so
    far, last written first.  An empty element and [.] are dropped; [..]
    removes the last written element when there is one that is not itself
    a leading [..], is dropped at the top of a rooted path, and is kept at
    the front of a path that is not rooted; any other element is written.
    [Clean_elements] is proved equal to [filepath.Clean] below. *)
Definition clean_elem (rooted : bool) (out : list string) (e : string)
  : list string :=
  if (e =? "")%string || (e =? ".")%string then out
  else if (e =? "..")%string then
    match out with
    | top :: out' =>
        if (top =? "..")%string then e :: out else out'
    | [] => if rooted then [] else [e]
    end
  else e :: out.

Definition clean_elems (rooted : bool) (es : list string) : list string :=
  fold_left (clean_elem rooted) es [].

Definition Clean_elements (path : string) : string :=
  match path with
  | EmptyString => "."
  | String c _ =>
      let rooted := Ascii.eqb c filepath.Separator in
      let out := rev (clean_elems rooted (strings.Split path filepath.Separator)) in
      if rooted then "/" ++ strings.Join out "/"
      else match out with
           | [] => "."
           | _ => strings.Join out "/"
           end
  end.

(** No separator occurs in [s]. *)
Definition slashfree (s : string) : bool :=
  strings.IndexRune s filepath.Separator =? -1.

(** The scan of [Clean] continued from the elements [out]. *)
Definition scan (rooted : bool) (out : list string) (es : list string)
  : list string :=
  fold_left (clean_elem rooted) es out.

(** The elements of what is left to parse: none when nothing is left. *)
Definition elems (s : string) : list string :=
  match s with
  | EmptyString => []
  | _ => strings.Split s filepath.Separator
  end.

(** What [Clean] writes for a rooted path whose scan left [out]. *)
Definition render (out : list string) : string :=
  "/" ++ strings.Join (rev out) "/".

(** An element that [Clean] writes and never takes for [.] or [..]. *)
Definition real (e : string) : bool :=
  negb (e =? "")%string && negb (e =? ".")%string
  && negb (e =? "..")%string && slashfree e.

(** The buffer that holds the components [cs], each with its separator. *)
Fixpoint buffer (cs : list string) : string :=
  match cs with
  | [] => ""
  | c :: cs' => c ++ String filepath.Separator (buffer cs')
  end.

(** Whether a path is rooted, and what [Clean] writes once its scan has
    left [out]. *)
Definition rooted_of (s : string) : bool :=
  match s with
  | String c _ => Ascii.eqb c filepath.Separator
  | EmptyString => false
  end.

Definition finish (rooted : bool) (out : list string) : string :=
  if rooted then render out
  else match rev out with
       | [] => "."
       | l => strings.Join l "/"
       end.

Definition is_dotdot (e : string) : bool := (e =? "..")%string.

(** The shape of what a scan leaves, last written first: real elements
    on top of, for a path that is not rooted, a run of leading [..]. *)
Fixpoint good (rooted : bool) (out : list string) : bool :=
  match out with
  | [] => true
  | e :: out' =>
      if is_dotdot e then negb rooted && forallb is_dotdot out'
      else real e && good rooted out'
  end.

(** The bytes of a string. *)
Definition chars (s : string) : list ascii := list_ascii_of_string s.

(** The buffer of [Clean] before any element is written. *)
Definition base (rooted : bool) : list ascii :=
  if rooted then ["/"%char] else [].

(** The buffer of [Clean] when the elements [stack] are written. *)
Fixpoint buf (rooted : bool) (stack : list string) : list ascii :=
  match stack with
  | [] => base rooted
  | e :: stack' =>
      (rev (chars e)
       ++ match stack' with
          | [] => base rooted
          | _ => "/"%char :: buf rooted stack'
          end)%list
  end.

(** That buffer, with the slash a further element needs. *)
Definition sep_buf (rooted : bool) (stack : list string) : list ascii :=
  match stack with
  | [] => base rooted
  | _ => "/"%char :: buf rooted stack
  end.

(** The leading [..] elements of what is written. *)
Fixpoint dots (stack : list string) : list string :=
  match stack with
  | [] => []
  | e :: stack' => if is_dotdot e then stack else dots stack'
  end.

(** The index [dotdot] of [Clean] when the elements [stack] are written. *)
Definition dd (rooted : bool) (stack : list string) : nat :=
  if rooted then 1%nat else List.length (buf false (dots stack)).

Definition nonsep (c : ascii) : Prop := os.IsPathSeparator c = false.

(** The element at the head of a path, and what follows it. *)
Fixpoint elem_of (rest : string) : string :=
  match rest with
  | EmptyString => EmptyString
  | String c r =>
      if os.IsPathSeparator c then EmptyString else String c (elem_of r)
  end.

Fixpoint after_elem (rest : string) : string :=
  match rest with
  | EmptyString => EmptyString
  | String c r => if os.IsPathSeparator c then rest else after_elem r
  end.

(** What the locals of a run without symlinks stand for: the buffer holds
    components without separators, and cleaning them followed by what is
    left to parse gives what cleaning the whole of [unsafePath0] gives. *)
Definition lexical (unsafePath0 : string) (st : state) : Prop :=
  n st = 0 /\
  exists cs,
    Forall (fun e => slashfree e = true) cs /\
    path st = buffer cs /\
    scan true [] (cs ++ elems (unsafePath st))
    = scan true [] (elems unsafePath0).

(** ** Small file systems to run the function on *)

Module memfs.

Inductive entry : Type :=
| File
| Dir
| Symlink (target : string).

Definition info (e : entry) : os.FileInfo :=
  match e with
  | File => {| os.Mode := 420; os.IsDir := false |}
  | Dir => {| os.Mode := Z.lor os.ModeDir 493; os.IsDir := true |}
  | Symlink _ => {| os.Mode := Z.lor os.ModeSymlink 511; os.IsDir := false |}
  end.

Fixpoint find (tbl : list (string * entry)) (name : string) : option entry :=
  match tbl with
  | [] => None
  | (k, e) :: tbl' => if (k =? name)%string then Some e else find tbl' name
  end.

(** The file system holding exactly the entries of [tbl]. *)
Definition of_table (tbl : list (string * entry)) : VFS :=
  {| Lstat := fun name =>
       match find tbl name with
       | Some e => Ok (info e)
       | None => Err (PathError "lstat" name (Errno syscall.ENOENT))
       end;
     Readlink := fun name =>
       match find tbl name with
       | Some (Symlink target) => Ok target
       | _ => Err (PathError "readlink" name (Errno 22))
       end |}.

End memfs.

(** A link whose target is a child of [/safe], written with the root. *)
Definition fs_rooted_link : VFS :=
  memfs.of_table [("/safe/link", memfs.Symlink "/safe/file")].

(** A file system that refuses every lookup with [EACCES]. *)
Definition fs_denied : VFS :=
  {| Lstat := fun name => Err (PathError "lstat" name (Errno syscall.EACCES));
     Readlink := fun name =>
       Err (PathError "readlink" name (Errno syscall.EACCES)) |}.

(** A directory [/safe/a] and nothing else. *)
Definition fs_plain : VFS := memfs.of_table [("/safe/a", memfs.Dir)].

Definition fs_empty : VFS := memfs.of_table [].

(** A link under [/safe] whose target, written with the root, climbs out
    of it. *)
Definition fs_escape : VFS :=
  memfs.of_table [("/safe/link", memfs.Symlink "/safe/../etc/passwd")].

(** A VFS that calls a link a directory: on it the function and the
    function without the [IsDir] test differ. *)
Definition fs_link_dir : VFS :=
  {| Lstat := fun name =>
       if (name =? "/safe/link")%string
       then Ok {| os.Mode := Z.lor os.ModeSymlink os.ModeDir;
                  os.IsDir := true |}
       else Err (PathError "lstat" name (Errno syscall.ENOENT));
     Readlink := fun name => Ok "/safe/file" |}.

(** The name made of [k] letters [a]. *)
Fixpoint letters (k : nat) : string :=
  match k with
  | O => ""
  | S k' => String "a" (letters k')
  end.

(** Under [/r]: links [a^k -> a^(k+1)] for [len] values of [k] from [k] on,
    and then the entry [last] under the next name. *)
Fixpoint chain (k len : nat) (last : memfs.entry)
  : list (string * memfs.entry) :=
  match len with
  | O => [("/r/" ++ letters k, last)]
  | S len' =>
      ("/r/" ++ letters k, memfs.Symlink (letters (S k)))
        :: chain (S k) len' last
  end.

(** Two links that point at each other. *)
Definition fs_cycle : VFS :=
  memfs.of_table [("/r/a", memfs.Symlink "b"); ("/r/b", memfs.Symlink "a")].

(** 254 links, then a file. *)
Definition fs_chain_254 : VFS := memfs.of_table (chain 1 254 memfs.File).

(** 255 links, then a file. *)
Definition fs_chain_255 : VFS := memfs.of_table (chain 1 255 memfs.File).

(** 255 relative links, then a link whose target is absolute and written
    with the root. *)
Definition fs_chain_rooted : VFS :=
  memfs.of_table (chain 1 255 (memfs.Symlink "/r/f")).

(** 256 links, then a file. *)
Definition fs_chain_256 : VFS := memfs.of_table (chain 1 256 memfs.File).

(** ** Vocabulary of the further properties *)


(** The VFS answers [vfs'] and [vfs] give for [name] are the same. *)
Definition same_answers (vfs vfs' : VFS) (name : string) : Prop :=
  Lstat vfs' name = Lstat vfs name /\ Readlink vfs' name = Readlink vfs name.

(** The elements [stack] (last written first) are checked: the root
    followed by any number of the first of them, at least one, names an
    entry that [Lstat] does not report as a symlink. *)
Definition checked (root : string) (vfs : VFS) (stack : list string) : Prop :=
  forall k,
    (k < List.length stack)%nat ->
    no_symlink_at vfs (filepath.Clean (root ++ render (skipn k stack))).

(** The buffer holds components without separators whose elements, once
    cleaned, are checked. *)
Definition buffer_checked (root : string) (vfs : VFS) (st : state) : Prop :=
  exists cs,
    Forall (fun e => slashfree e = true) cs /\
    path st = buffer cs /\
    checked root vfs (scan true [] cs).

(** What a call reads in an answer of [Lstat]: the error, or else whether
    the entry is a symlink and, for a symlink, whether it is a directory. *)
Definition same_kind (r r' : result os.FileInfo) : Prop :=
  match r, r' with
  | Ok fi, Ok fi' =>
      is_symlink fi' = is_symlink fi /\
      (is_symlink fi = true -> os.IsDir fi' = os.IsDir fi)
  | Err err, Err err' => err' = err
  | _, _ => False
  end.

(** [fs_plain] with every entry reported as a regular file, and a target
    given for every name. *)
Definition fs_plain_files : VFS :=
  {| Lstat := fun name =>
       match Lstat fs_plain name with
       | Ok _ => Ok (memfs.info memfs.File)
       | Err err => Err err
       end;
     Readlink := fun _ => Ok "/etc" |}.

(** A link [/safe/d/l] to [../e], in a directory [/safe/d]. *)
Definition fs_relative_link : VFS :=
  memfs.of_table [("/safe/d", memfs.Dir);
                  ("/safe/d/l", memfs.Symlink "../e")].

(** [fs_plain] with a link put beside the root [/safe]. *)
Definition fs_plain_beside : VFS :=
  {| Lstat := fun name =>
       if (name =? "/other")%string
       then Ok (memfs.info (memfs.Symlink "/safe"))
       else Lstat fs_plain name;
     Readlink := fun name =>
       if (name =? "/other")%string then Ok "/safe"
       else Readlink fs_plain name |}.

(** * Part III: termination, and the loops *)

Lemma IndexRune_range s r :
  strings.IndexRune s r = -1 \/
  (0 <= strings.IndexRune s r < Z.of_nat (String.length s)).
Proof.
  induction s as [|c s IH]; simpl; [now left|].
  destruct (Ascii.eqb c r); [right; lia|].
  destruct (strings.IndexRune s r =? -1) eqn:E; [now left|].
  apply Z.eqb_neq in E. right. lia.
Qed.

Lemma length_drop k s :
  String.length (strings.drop k s) = (String.length s - k)%nat.
Proof.
  revert s; induction k as [|k IH]; intros [|c s]; simpl; auto.
Qed.

Lemma next_component_shorter s p rest :
  s <> "" -> next_component s = (p, rest) ->
  (String.length rest < String.length s)%nat.
Proof.
  unfold next_component. intros Hs H.
  destruct (strings.IndexRune s filepath.Separator =? -1) eqn:E.
  - injection H as _ <-. destruct s; [congruence|simpl; lia].
  - apply Z.eqb_neq in E. injection H as _ <-.
    unfold strings.slice_from. rewrite length_drop.
    destruct (IndexRune_range s filepath.Separator); lia.
Qed.

Lemma eqb_string_false s : (s =? "")%string = false -> s <> "".
Proof. intros H ->. discriminate. Qed.

(** Every turn that goes round again lowers the measure. *)
Lemma turn_decreases root vfs st st' :
  turn root vfs st = Continue st' ->
  measure_lt (measure st') (measure st).
Proof.
  unfold turn, body, measure.
  destruct (unsafePath st =? "")%string eqn:Hne; [discriminate|].
  apply eqb_string_false in Hne.
  destruct (n st >? 255) eqn:Hn; [discriminate|].
  assert (n st <= 255) by (destruct (Z.gtb_spec (n st) 255); [discriminate|lia]).
  destruct (next_component (unsafePath st)) as [p rest] eqn:Hc.
  pose proof (next_component_shorter _ _ _ Hne Hc) as Hlen.
  assert (Hsame : measure_lt
            (Z.to_nat (256 - n st), String.length rest)
            (Z.to_nat (256 - n st), String.length (unsafePath st)))
    by (now apply right_lex).
  assert (Hderef : forall k, measure_lt
            (Z.to_nat (256 - (n st + 1)), k)
            (Z.to_nat (256 - n st), String.length (unsafePath st)))
    by (intros k; apply left_lex; lia).
  repeat match goal with
         | |- context [if ?b then _ else _] => destruct b
         | |- context [match ?x with Ok _ => _ | Err _ => _ end] => destruct x
         end;
    intros H0; inversion H0; subst; cbn [path unsafePath n]; auto.
Qed.

(** Without the test, a turn does what the original does on [never_dir]. *)
Lemma turn_no_IsDir_never_dir root vfs st :
  turn_no_IsDir root vfs st = turn root (never_dir vfs) st.
Proof.
  unfold turn_no_IsDir, turn, body_no_IsDir, body, never_dir.
  cbn [Lstat Readlink].
  destruct (unsafePath st =? "")%string; [reflexivity|].
  destruct (n st >? 255); [reflexivity|].
  destruct (next_component (unsafePath st)) as [p rest].
  destruct (_ =? filepath.SeparatorString)%string; [reflexivity|].
  destruct (Lstat vfs _) as [fi|err]; [|reflexivity].
  cbn [os.Mode os.IsDir negb andb]. reflexivity.
Qed.

Lemma turn_no_IsDir_decreases root vfs st st' :
  turn_no_IsDir root vfs st = Continue st' ->
  measure_lt (measure st') (measure st).
Proof. rewrite turn_no_IsDir_never_dir. apply turn_decreases. Qed.

Section Loops.

Variable root : string.
Variable vfs : VFS.

(** The [for unsafePath != ""] loop followed by the closing lines of the
    function; recursion is on [measure]. *)
Equations? loop (st : state) : result string
  by wf (measure st) measure_lt :=
  loop st with inspect (turn root vfs st) := {
    | exist _ (Return r) _ => r
    | exist _ (Continue st') Hturn => loop st' }.
Proof. eapply turn_decreases; eauto. Qed.

(** The number of dereferences in the run that starts with locals [st]:
    the number of times that run reaches [n++]. *)
Equations? derefs (st : state) : nat by wf (measure st) measure_lt :=
  derefs st with inspect (turn root vfs st) := {
    | exist _ (Return _) _ => one_if (dereferences root vfs st)
    | exist _ (Continue st') Hturn =>
        (one_if (dereferences root vfs st) + derefs st')%nat }.
Proof. eapply turn_decreases; eauto. Qed.

(** The names handed to [Lstat], in order, in the run from [st]. *)
Equations? lookups (st : state) : list string
  by wf (measure st) measure_lt :=
  lookups st with inspect (turn root vfs st) := {
    | exist _ (Return _) _ => lookup_of root st
    | exist _ (Continue st') Hturn => (lookup_of root st ++ lookups st')%list }.
Proof. eapply turn_decreases; eauto. Qed.

(** The loop of the function without the [IsDir] test. *)
Equations? loop_no_IsDir (st : state) : result string
  by wf (measure st) measure_lt :=
  loop_no_IsDir st with inspect (turn_no_IsDir root vfs st) := {
    | exist _ (Return r) _ => r
    | exist _ (Continue st') Hturn => loop_no_IsDir st' }.
Proof. eapply turn_no_IsDir_decreases; eauto. Qed.

End Loops.

(** [SecureJoinVFS root unsafePath vfs] for a non-nil [vfs]. *)
Definition SecureJoinVFS (root unsafePath : string) (vfs : VFS)
  : result string :=
  loop root vfs (init unsafePath).

Section OS.

(** The [os.Lstat] and [os.Readlink] of the machine the program runs on. *)
Variable osVFS : VFS.

(** The function as exported: a nil [vfs] stands for [osVFS]. *)
Definition SecureJoinVFS_nil (root unsafePath : string) (vfs : option VFS)
  : result string :=
  SecureJoinVFS root unsafePath
    match vfs with
    | None => osVFS
    | Some v => v
    end.

Definition SecureJoin (root unsafePath : string) : result string :=
  SecureJoinVFS_nil root unsafePath None.

End OS.

Definition SecureJoinVFS_no_IsDir (root unsafePath : string) (vfs : VFS)
  : result string :=
  loop_no_IsDir root vfs (init unsafePath).

(** * Part IV: lemmas and theorems *)

(** Go's table of [Clean] examples (the tests of path/filepath), run on
    the model. *)
Example Clean_table :
  map filepath.Clean
    [ "abc"; "abc/def"; "a/b/c"; "."; ".."; "../.."; "../../abc"; "/abc";
      "/"; "";
      "abc/"; "abc/def/"; "a/b/c/"; "./"; "../"; "../../"; "/abc/";
      "abc//def//ghi"; "abc//"; "//abc"; "///abc"; "//abc//";
      "abc/./def"; "/./abc/def"; "abc/.";
      "abc/def/ghi/../jkl"; "abc/def/../ghi/../jkl"; "abc/def/..";
      "abc/def/../.."; "/abc/def/../.."; "abc/def/../../..";
      "/abc/def/../../.."; "abc/def/../../../ghi/jkl/../../../mno";
      "/../abc";
      "abc/./../def"; "abc//./../def"; "abc/../../././../def" ]
  = [ "abc"; "abc/def"; "a/b/c"; "."; ".."; "../.."; "../../abc"; "/abc";
      "/"; ".";
      "abc"; "abc/def"; "a/b/c"; "."; ".."; "../.."; "/abc";
      "abc/def/ghi"; "abc"; "/abc"; "/abc"; "/abc";
      "abc/def"; "/abc/def"; "abc";
      "abc/def/jkl"; "abc/jkl"; "abc";
      "."; "/"; "..";
      "/"; "../../mno";
      "/abc";
      "def"; "def"; "../../def" ].
Proof. reflexivity. Qed.

(** ** The loop, one turn at a time *)

Lemma loop_turn root vfs st :
  loop root vfs st =
  match turn root vfs st with
  | Return r => r
  | Continue st' => loop root vfs st'
  end.
Proof.
  rewrite loop_equation_1. unfold loop_unfold_clause_1, inspect.
  destruct (turn root vfs st); reflexivity.
Qed.

Lemma measure_lt_wf : well_founded measure_lt.
Proof. apply wf_lexprod; apply Nat.lt_wf_0. Qed.

(** Induction on the states of a run, following the turns of the loop. *)
Lemma turn_ind root vfs (P : state -> Prop) :
  (forall st,
     (forall st', turn root vfs st = Continue st' -> P st') -> P st) ->
  forall st, P st.
Proof.
  intros step st.
  remember (measure st) as m eqn:Hm. revert st Hm.
  induction (measure_lt_wf m) as [m _ IH]. intros st ->.
  apply step. intros st' Hturn.
  apply (IH (measure st')); [|reflexivity].
  eapply turn_decreases; eauto.
Qed.

Lemma steps_trans root vfs a b c :
  steps root vfs a b -> steps root vfs b c -> steps root vfs a c.
Proof.
  induction 1; intros; auto. eapply steps_turn; eauto.
Qed.

Lemma steps_snoc root vfs a b c :
  steps root vfs a b -> turn root vfs b = Continue c -> steps root vfs a c.
Proof.
  intros H Hb. eapply steps_trans; [exact H|].
  eapply steps_turn; [exact Hb|apply steps_refl].
Qed.

(** The result of the loop is the result of the turn that leaves it. *)
Lemma loop_leaves root vfs st :
  exists st', steps root vfs st st' /\
              turn root vfs st' = Return (loop root vfs st).
Proof.
  induction st as [st IH] using (turn_ind root vfs).
  rewrite loop_turn. destruct (turn root vfs st) as [st1|r] eqn:Hturn.
  - destruct (IH st1 eq_refl) as [st' [Hs Hr]].
    exists st'. split; [eapply steps_turn; eauto|exact Hr].
  - exists st. split; [apply steps_refl|exact Hturn].
Qed.

Lemma steps_loop root vfs st st' :
  steps root vfs st st' -> loop root vfs st = loop root vfs st'.
Proof.
  induction 1 as [|st st1 st2 Hturn _ IH]; [reflexivity|].
  rewrite loop_turn, Hturn. exact IH.
Qed.

Lemma loop_returns root vfs st st' r :
  steps root vfs st st' -> turn root vfs st' = Return r ->
  loop root vfs st = r.
Proof.
  intros Hs Hr. rewrite (steps_loop _ _ _ _ Hs), loop_turn, Hr. reflexivity.
Qed.

(** The bounded loop agrees with the loop whenever its fuel suffices, and
    some amount of fuel always does. *)
Lemma loop_fuel_sound root vfs fuel st r :
  loop_fuel root vfs fuel st = Some r -> loop root vfs st = r.
Proof.
  revert st; induction fuel as [|fuel IH]; intros st; simpl; [discriminate|].
  rewrite loop_turn. destruct (turn root vfs st); [apply IH|congruence].
Qed.

Lemma loop_fuel_enough root vfs st :
  exists fuel, loop_fuel root vfs fuel st = Some (loop root vfs st).
Proof.
  induction st as [st IH] using (turn_ind root vfs).
  rewrite loop_turn. destruct (turn root vfs st) as [st1|r] eqn:Hturn.
  - destruct (IH st1 eq_refl) as [fuel Hf].
    exists (S fuel). simpl. rewrite Hturn. exact Hf.
  - exists 1%nat. simpl. rewrite Hturn. reflexivity.
Qed.

Lemma SecureJoinVFS_fuel root unsafePath vfs fuel r :
  loop_fuel root vfs fuel (init unsafePath) = Some r ->
  SecureJoinVFS root unsafePath vfs = r.
Proof. apply loop_fuel_sound. Qed.

(** The turn of a state that examines an entry, case by case. *)
Lemma turn_examines root vfs st :
  examines st = true ->
  turn root vfs st =
  match Lstat vfs (fullP root st) with
  | Err err => if IsNotExist err then Continue (accepted st)
               else Return (Err err)
  | Ok fi =>
      if is_symlink fi then
        match Readlink vfs (fullP root st) with
        | Err err => Return (Err err)
        | Ok dest =>
            if filepath.IsAbs dest then
              if negb (os.IsDir fi)
                 && strings.HasPrefix dest (root ++ filepath.SeparatorString)
              then Return (Ok (filepath.Clean dest))
              else Continue (expanded false dest st)
            else Continue (expanded true dest st)
        end
      else Continue (accepted st)
  end.
Proof.
  unfold examines, turn, body, fullP, cleanP, accepted, expanded, is_symlink,
    component, remainder.
  destruct (unsafePath st =? "")%string; [discriminate|].
  destruct (n st >? 255); [discriminate|].
  destruct (next_component (unsafePath st)) as [p rest]. cbn [fst snd negb andb].
  destruct (_ =? filepath.SeparatorString)%string; [discriminate|]. intros _.
  destruct (Lstat vfs _) as [fi|err]; [|reflexivity].
  destruct (Z.land (os.Mode fi) os.ModeSymlink =? 0); [reflexivity|].
  cbn [negb]. destruct (Readlink vfs _) as [dest|err]; [|reflexivity].
  destruct (filepath.IsAbs dest); reflexivity.
Qed.

(** The turn of a state whose scoped path collapses to the root. *)
Lemma turn_clamps root vfs st :
  (unsafePath st =? "")%string = false ->
  (n st >? 255) = false ->
  cleanP st = filepath.SeparatorString ->
  turn root vfs st =
  Continue {| path := ""; unsafePath := remainder st; n := n st |}.
Proof.
  unfold turn, body, cleanP, component, remainder. intros -> ->.
  destruct (next_component (unsafePath st)) as [p rest]. cbn [fst snd].
  intros ->. reflexivity.
Qed.

(** The turn of a state whose counter is over the ceiling. *)
Lemma turn_over root vfs st :
  (unsafePath st =? "")%string = false ->
  (n st >? 255) = true ->
  turn root vfs st = Return (Err (loop_error root (unsafePath st))).
Proof. unfold turn, body. intros -> ->. reflexivity. Qed.

Lemma run_turns_steps root vfs k st st' :
  run_turns root vfs k st = Some st' -> steps root vfs st st'.
Proof.
  revert st; induction k as [|k IH]; intros st; simpl.
  - intros [= ->]. apply steps_refl.
  - destruct (turn root vfs st) eqn:Hturn; [|discriminate].
    intros H. eapply steps_turn; eauto.
Qed.

Lemma steps_last root vfs a c :
  steps root vfs a c ->
  a = c \/ exists b, steps root vfs a b /\ turn root vfs b = Continue c.
Proof.
  induction 1 as [|st st1 st2 Hturn Hs IH]; [now left|]. right.
  destruct IH as [<-|[b [Hb Hbc]]].
  - exists st. split; [apply steps_refl|exact Hturn].
  - exists b. split; [eapply steps_turn; eauto|exact Hbc].
Qed.

(** ** The counter along a run *)

(** A turn that goes round again either consumed a component and left the
    counter alone, or dereferenced a link, put its target in front of what
    was left and added one to the counter. *)
Lemma turn_continue root vfs st st' :
  turn root vfs st = Continue st' ->
  n st <= 255 /\
  ((dereferences root vfs st = false /\
    n st' = n st /\ unsafePath st' = remainder st)
   \/
   (dereferences root vfs st = true /\
    n st' = n st + 1 /\
    exists dest,
      Readlink vfs (fullP root st) = Ok dest /\
      unsafePath st' = dest ++ filepath.SeparatorString ++ remainder st)).
Proof.
  intros Hturn. unfold dereferences.
  destruct (unsafePath st =? "")%string eqn:Hne;
    [unfold turn in Hturn; rewrite Hne in Hturn; discriminate|].
  destruct (n st >? 255) eqn:Hn;
    [rewrite turn_over in Hturn by assumption; discriminate|].
  assert (n st <= 255) by (destruct (Z.gtb_spec (n st) 255); [discriminate|lia]).
  split; [assumption|].
  destruct (cleanP st =? filepath.SeparatorString)%string eqn:Hc.
  - apply String.eqb_eq in Hc. pose proof Hc as Hc'.
    apply (turn_clamps root vfs st Hne Hn) in Hc.
    rewrite Hc in Hturn. injection Hturn as <-.
    left. unfold examines. rewrite Hne, Hn, Hc'. auto.
  - assert (Hex : examines st = true)
      by (unfold examines; rewrite Hne, Hn, Hc; reflexivity).
    rewrite (turn_examines _ _ _ Hex) in Hturn. rewrite Hex. cbn [andb].
    destruct (Lstat vfs (fullP root st)) as [fi|err].
    + destruct (is_symlink fi).
      * right. split; [reflexivity|].
        destruct (Readlink vfs (fullP root st)) as [dest|err]; [|discriminate].
        destruct (filepath.IsAbs dest);
          [destruct (negb _ && _); [discriminate|]|];
          injection Hturn as <-; (split; [reflexivity|]);
          exists dest; auto.
      * left. injection Hturn as <-. auto.
    + left. destruct (IsNotExist err); [|discriminate].
      injection Hturn as <-. auto.
Qed.

(** The counter never goes down, and never goes beyond 256. *)
Lemma steps_counter root vfs st st' :
  steps root vfs st st' -> n st <= 256 -> n st <= n st' <= 256.
Proof.
  induction 1 as [|st st1 st2 Hturn _ IH]; intros Hn; [lia|].
  apply turn_continue in Hturn.
  destruct Hturn as [H255 [[_ [H1 _]]|[_ [H1 _]]]]; lia.
Qed.

(** The depth check fires exactly in the turns entered with counter 256. *)
Lemma depth_check_fails_iff root vfs unsafePath0 st :
  steps root vfs (init unsafePath0) st ->
  depth_check_fails st = true <-> n st = 256.
Proof.
  intros Hs. pose proof (steps_counter _ _ _ _ Hs) as Hn. cbn in Hn.
  unfold depth_check_fails. split.
  - intros H. apply andb_true_iff in H. destruct H as [_ H].
    destruct (Z.gtb_spec (n st) 255); [lia|discriminate].
  - intros H256. apply andb_true_iff. split.
    + (* a counter of 256 was just incremented: a target and a separator
         stand in front of what is left *)
      clear Hn. remember (init unsafePath0) as st0 eqn:E.
      assert (H0 : n st0 < 256) by (subst; cbn; lia). clear E.
      induction Hs as [st|st st1 st2 Hturn Hs IH]; [lia|].
      pose proof (turn_continue _ _ _ _ Hturn) as [H255 Hcase].
      destruct (Z.eq_dec (n st1) 256) as [E1|E1].
      * destruct Hcase as [[_ [H1 _]]|[_ [_ [dest [_ Hu]]]]]; [lia|].
        assert (Hne : unsafePath st1 <> "").
        { rewrite Hu. destruct dest; discriminate. }
        inversion Hs; subst.
        -- destruct (unsafePath st2); [congruence|reflexivity].
        -- exfalso.
           match goal with
           | Ht : turn _ _ st1 = Continue _ |- _ =>
               apply turn_continue in Ht; lia
           end.
      * apply IH; [assumption|].
        destruct Hcase as [[_ [H1 _]]|[_ [H1 _]]]; lia.
    + destruct (Z.gtb_spec (n st) 255); [reflexivity|lia].
Qed.

Lemma derefs_turn root vfs st :
  derefs root vfs st =
  (one_if (dereferences root vfs st) +
   match turn root vfs st with
   | Return _ => 0
   | Continue st' => derefs root vfs st'
   end)%nat.
Proof.
  rewrite derefs_equation_1. unfold derefs_unfold_clause_1, inspect.
  destruct (turn root vfs st); [reflexivity|apply plus_n_O].
Qed.

(** The counter counts the dereferences: along a run it grows by exactly
    the number of links dereferenced on the way. *)
Lemma derefs_steps root vfs st st' :
  steps root vfs st st' ->
  Z.of_nat (derefs root vfs st) =
  n st' - n st + Z.of_nat (derefs root vfs st').
Proof.
  induction 1 as [|st st1 st2 Hturn _ IH]; [lia|].
  rewrite derefs_turn, Hturn.
  apply turn_continue in Hturn.
  destruct Hturn as [_ [[-> [H1 _]]|[-> [H1 _]]]]; cbn [one_if]; lia.
Qed.

Lemma derefs_last root vfs st r :
  turn root vfs st = Return r ->
  derefs root vfs st = one_if (dereferences root vfs st).
Proof. intros H. rewrite derefs_turn, H. apply Nat.add_0_r. Qed.

(** At the turn that leaves the loop, the dereferences of the whole call
    are those the counter has counted, and one more when that very turn
    dereferences a link. *)
Lemma derefs_total root vfs unsafePath0 st r :
  steps root vfs (init unsafePath0) st ->
  turn root vfs st = Return r ->
  Z.of_nat (derefs root vfs (init unsafePath0))
  = n st + Z.of_nat (one_if (dereferences root vfs st)).
Proof.
  intros Hs Hr. rewrite (derefs_steps _ _ _ _ Hs), (derefs_last _ _ _ _ Hr).
  cbn. lia.
Qed.

Lemma depth_check_not_deref root vfs st :
  depth_check_fails st = true -> dereferences root vfs st = false.
Proof.
  unfold depth_check_fails, dereferences, examines. intros H.
  apply andb_true_iff in H. destruct H as [_ ->].
  now rewrite andb_false_r.
Qed.

Lemma fs_cycle_run :
  steps "/r" fs_cycle (init "a")
    {| path := ""; unsafePath := "a/"; n := 256 |}.
Proof. apply (run_turns_steps "/r" fs_cycle 256). vm_compute. reflexivity. Qed.

Lemma fs_chain_rooted_run :
  steps "/r" fs_chain_rooted (init "a")
    {| path := ""; unsafePath := letters 256 ++ "/"; n := 255 |}.
Proof.
  apply (run_turns_steps "/r" fs_chain_rooted 255). vm_compute. reflexivity.
Qed.

(** ** Elements of a path *)

Lemma slashfree_cons c s :
  slashfree (String c s) = negb (Ascii.eqb c filepath.Separator) && slashfree s.
Proof.
  unfold slashfree. cbn [strings.IndexRune].
  destruct (Ascii.eqb c filepath.Separator); [reflexivity|].
  destruct (strings.IndexRune s filepath.Separator =? -1) eqn:E;
    [reflexivity|].
  apply Z.eqb_neq in E. cbn [negb andb]. apply Z.eqb_neq.
  destruct (IndexRune_range s filepath.Separator); lia.
Qed.

Lemma Split_nonempty s sep : strings.Split s sep <> [].
Proof.
  destruct s as [|c s]; cbn; [discriminate|].
  destruct (Ascii.eqb c sep); [discriminate|].
  destruct (strings.Split s sep); discriminate.
Qed.

(** Splitting a string that has a separator in the middle. *)
Lemma Split_app_sep a b :
  strings.Split (a ++ String filepath.Separator b) filepath.Separator
  = (strings.Split a filepath.Separator
     ++ strings.Split b filepath.Separator)%list.
Proof.
  induction a as [|c a IH]; cbn [append strings.Split].
  - rewrite Ascii.eqb_refl. reflexivity.
  - destruct (Ascii.eqb c filepath.Separator).
    + rewrite IH. reflexivity.
    + rewrite IH.
      pose proof (Split_nonempty a filepath.Separator).
      destruct (strings.Split a filepath.Separator); [congruence|reflexivity].
Qed.

Lemma Split_slashfree s :
  slashfree s = true -> strings.Split s filepath.Separator = [s].
Proof.
  induction s as [|c s IH]; [reflexivity|].
  rewrite slashfree_cons. intros H. apply andb_true_iff in H.
  destruct H as [Hc Hs]. apply negb_true_iff in Hc.
  cbn [strings.Split]. rewrite Hc, (IH Hs). reflexivity.
Qed.

Lemma Split_all_slashfree s :
  Forall (fun e => slashfree e = true) (strings.Split s filepath.Separator).
Proof.
  induction s as [|c s IH]; cbn [strings.Split].
  - repeat constructor.
  - destruct (Ascii.eqb c filepath.Separator) eqn:Hc.
    + constructor; [reflexivity|exact IH].
    + destruct (strings.Split s filepath.Separator) as [|h t].
      * repeat constructor. rewrite slashfree_cons, Hc. reflexivity.
      * inversion IH; subst. constructor; [|assumption].
        rewrite slashfree_cons, Hc. assumption.
Qed.

(** Cutting a string at its first separator. *)
Lemma cut_at_separator s :
  strings.IndexRune s filepath.Separator <> -1 ->
  let i := strings.IndexRune s filepath.Separator in
  slashfree (strings.slice_to s i) = true /\
  s = strings.slice_to s i
      ++ String filepath.Separator (strings.slice_from s (i + 1)).
Proof.
  unfold strings.slice_to, strings.slice_from.
  induction s as [|c s IH]; cbn [strings.IndexRune]; [congruence|].
  destruct (Ascii.eqb c filepath.Separator) eqn:Hc.
  - intros _. apply Ascii.eqb_eq in Hc. subst c. split; reflexivity.
  - destruct (strings.IndexRune s filepath.Separator =? -1) eqn:E;
      [congruence|]. intros _.
    apply Z.eqb_neq in E. specialize (IH E). cbv zeta in IH.
    destruct (IndexRune_range s filepath.Separator) as [|Hr]; [congruence|].
    replace (Z.to_nat (strings.IndexRune s filepath.Separator + 1))
      with (S (Z.to_nat (strings.IndexRune s filepath.Separator))) by lia.
    replace (Z.to_nat (strings.IndexRune s filepath.Separator + 1 + 1))
      with (S (S (Z.to_nat (strings.IndexRune s filepath.Separator)))) by lia.
    replace (Z.to_nat (strings.IndexRune s filepath.Separator + 1))
      with (S (Z.to_nat (strings.IndexRune s filepath.Separator))) in IH by lia.
    cbn [strings.take strings.drop append].
    destruct IH as [IH1 IH2]. split.
    + rewrite slashfree_cons, Hc, IH1. reflexivity.
    + f_equal. exact IH2.
Qed.

(** The component of a turn has no separator, and [unsafePath] is the
    component alone, or the component, a separator and the remainder. *)
Lemma next_component_spec s :
  slashfree (fst (next_component s)) = true /\
  ((slashfree s = true /\ next_component s = (s, "")) \/
   s = fst (next_component s)
       ++ String filepath.Separator (snd (next_component s))).
Proof.
  unfold next_component.
  destruct (strings.IndexRune s filepath.Separator =? -1) eqn:E.
  - cbn [fst snd]. split; [exact E|]. left. split; [exact E|reflexivity].
  - apply Z.eqb_neq in E. cbn [fst snd].
    destruct (cut_at_separator s E) as [H1 H2]. split; [exact H1|].
    right. exact H2.
Qed.

Lemma append_assoc (a b c : string) : (a ++ b) ++ c = a ++ (b ++ c).
Proof. induction a as [|x a IH]; cbn; [reflexivity|now rewrite IH]. Qed.

Lemma append_nil_r (a : string) : a ++ "" = a.
Proof. induction a as [|x a IH]; cbn; [reflexivity|now rewrite IH]. Qed.

(** ** The algebra of [Clean] *)

Lemma scan_app rooted out es1 es2 :
  scan rooted out (es1 ++ es2) = scan rooted (scan rooted out es1) es2.
Proof. apply fold_left_app. Qed.

Lemma scan_elems rooted out s :
  scan rooted out (elems s)
  = scan rooted out (strings.Split s filepath.Separator).
Proof. destruct s; reflexivity. Qed.

Lemma clean_elem_real rooted out e :
  real e = true -> clean_elem rooted out e = e :: out.
Proof.
  unfold real, clean_elem. intros H.
  destruct (e =? "")%string; [discriminate|].
  destruct (e =? ".")%string; [discriminate|].
  destruct (e =? "..")%string; [discriminate|reflexivity].
Qed.

(** The elements a rooted scan leaves are all real. *)
Lemma scan_rooted_real es out :
  Forall (fun e => slashfree e = true) es ->
  Forall (fun e => real e = true) out ->
  Forall (fun e => real e = true) (scan true out es).
Proof.
  intros Hes. revert out.
  induction Hes as [|e es He _ IH]; intros out Hout; [exact Hout|].
  cbn [scan fold_left]. apply IH.
  unfold clean_elem.
  destruct (e =? "")%string eqn:E1; [exact Hout|].
  destruct (e =? ".")%string eqn:E2; [exact Hout|]. cbn [orb].
  destruct (e =? "..")%string eqn:E3.
  - destruct out as [|top out']; [constructor|].
    inversion Hout as [|? ? Htop Hout']; subst.
    destruct (top =? "..")%string eqn:E4; [|exact Hout'].
    unfold real in Htop. rewrite E4 in Htop.
    rewrite andb_false_r in Htop. discriminate.
  - constructor; [|exact Hout].
    unfold real. rewrite E1, E2, E3, He. reflexivity.
Qed.

Lemma real_nonempty e : real e = true -> e <> "".
Proof. intros H ->. discriminate. Qed.

Lemma good_dots out : forallb is_dotdot out = true -> good false out = true.
Proof.
  induction out as [|e out IH]; [reflexivity|]. cbn [forallb good].
  intros H. apply andb_true_iff in H. destruct H as [-> H]. exact H.
Qed.

Lemma good_tail rooted e out :
  good rooted (e :: out) = true -> good rooted out = true.
Proof.
  cbn [good]. destruct (is_dotdot e).
  - intros H. apply andb_true_iff in H. destruct H as [Hr H].
    destruct rooted; [discriminate|]. now apply good_dots.
  - intros H. apply andb_true_iff in H. tauto.
Qed.

Lemma clean_elem_good rooted out e :
  slashfree e = true -> good rooted out = true ->
  good rooted (clean_elem rooted out e) = true.
Proof.
  intros He Hout. unfold clean_elem.
  destruct (e =? "")%string eqn:E1; [exact Hout|].
  destruct (e =? ".")%string eqn:E2; [exact Hout|]. cbn [orb].
  destruct (e =? "..")%string eqn:E3.
  - destruct out as [|top out'].
    + destruct rooted; [reflexivity|].
      cbn [good]. unfold is_dotdot. rewrite E3. reflexivity.
    + destruct (top =? "..")%string eqn:E4.
      * cbn [good forallb] in *. unfold is_dotdot in *.
        rewrite E3, E4. rewrite E4 in Hout.
        apply andb_true_iff in Hout. destruct Hout as [-> ->]. reflexivity.
      * now apply good_tail in Hout.
  - cbn [good]. unfold is_dotdot. rewrite E3. unfold real.
    rewrite E1, E2, E3, He, Hout. reflexivity.
Qed.

Lemma scan_good rooted es out :
  Forall (fun e => slashfree e = true) es ->
  good rooted out = true -> good rooted (scan rooted out es) = true.
Proof.
  intros Hes. revert out.
  induction Hes as [|e es He _ IH]; intros out Hout; [exact Hout|].
  cbn [scan fold_left]. apply IH. now apply clean_elem_good.
Qed.

(** Scanning what a scan has written writes it again. *)
Lemma scan_written rooted out :
  good rooted out = true -> scan rooted [] (rev out) = out.
Proof.
  induction out as [|e out IH]; [reflexivity|]. intros H.
  cbn [rev]. rewrite scan_app, (IH (good_tail _ _ _ H)).
  cbn [scan fold_left good] in *.
  destruct (is_dotdot e) eqn:E.
  - unfold is_dotdot in E. apply String.eqb_eq in E. subst e.
    apply andb_true_iff in H. destruct H as [Hr Hd].
    destruct rooted; [discriminate|].
    destruct out as [|top out]; [reflexivity|].
    cbn [forallb] in Hd. apply andb_true_iff in Hd. destruct Hd as [Ht _].
    unfold is_dotdot in Ht. unfold clean_elem. cbn [String.eqb orb].
    cbv beta iota. change (".." =? "..")%string with true. cbv iota.
    rewrite Ht. reflexivity.
  - apply andb_true_iff in H. destruct H as [Hr _].
    now apply clean_elem_real.
Qed.

Lemma good_elements rooted out :
  good rooted out = true ->
  Forall (fun e => slashfree e = true /\ e <> "") out.
Proof.
  induction out as [|e out IH]; [constructor|]. intros H.
  constructor; [|exact (IH (good_tail _ _ _ H))].
  cbn [good] in H. destruct (is_dotdot e) eqn:E.
  - unfold is_dotdot in E. apply String.eqb_eq in E. subst e.
    split; [reflexivity|discriminate].
  - apply andb_true_iff in H. destruct H as [Hr _]. unfold real in Hr.
    split; [|now apply real_nonempty].
    apply andb_true_iff in Hr. tauto.
Qed.

(** Splitting what [Join] has joined gives the elements back. *)
Lemma Split_Join l :
  l <> [] -> Forall (fun e => slashfree e = true) l ->
  strings.Split (strings.Join l "/") filepath.Separator = l.
Proof.
  intros Hl H. induction H as [|x l Hx Hrest IH]; [congruence|].
  destruct l as [|y l].
  - cbn. now apply Split_slashfree.
  - change (strings.Join (x :: y :: l) "/")
      with (x ++ String filepath.Separator (strings.Join (y :: l) "/")).
    rewrite Split_app_sep, (Split_slashfree _ Hx), IH by discriminate.
    reflexivity.
Qed.

Lemma Join_first e l :
  slashfree e = true -> e <> "" ->
  strings.Join (e :: l) "/" <> "" /\
  rooted_of (strings.Join (e :: l) "/") = false.
Proof.
  intros Hs Hne. destruct e as [|c e]; [congruence|].
  rewrite slashfree_cons in Hs. apply andb_true_iff in Hs.
  destruct Hs as [Hc _]. apply negb_true_iff in Hc.
  destruct l; cbn; (split; [discriminate|exact Hc]).
Qed.

(** *** The byte-by-byte [Clean] and its reading by elements *)

Lemma buf_cons rooted e stack :
  buf rooted (e :: stack) = (rev (chars e) ++ sep_buf rooted stack)%list.
Proof. reflexivity. Qed.

Lemma chars_app a b : chars (a ++ b) = (chars a ++ chars b)%list.
Proof.
  unfold chars. induction a as [|c a IH]; cbn; [reflexivity|now rewrite IH].
Qed.

Lemma string_of_chars_app l1 l2 :
  string_of_list_ascii (l1 ++ l2)
  = string_of_list_ascii l1 ++ string_of_list_ascii l2.
Proof. induction l1 as [|c l IH]; cbn; [reflexivity|now rewrite IH]. Qed.

Lemma Join_snoc l e :
  strings.Join (l ++ [e]) "/"
  = match l with
    | [] => e
    | _ => strings.Join l "/" ++ "/" ++ e
    end.
Proof.
  induction l as [|x l IH]; [reflexivity|].
  destruct l as [|y l]; [reflexivity|].
  change (strings.Join ((x :: y :: l) ++ [e]) "/")
    with (x ++ "/" ++ strings.Join ((y :: l) ++ [e]) "/").
  rewrite IH.
  change (strings.Join (x :: y :: l) "/")
    with (x ++ "/" ++ strings.Join (y :: l) "/").
  rewrite !append_assoc. reflexivity.
Qed.

Lemma buf_string rooted stack :
  string_of_list_ascii (rev (buf rooted stack))
  = (if rooted then "/" else "") ++ strings.Join (rev stack) "/".
Proof.
  induction stack as [|e stack IH].
  - destruct rooted; reflexivity.
  - rewrite buf_cons, rev_app_distr, rev_involutive, string_of_chars_app.
    unfold chars. rewrite string_of_list_ascii_of_string.
    cbn [rev]. rewrite Join_snoc.
    destruct stack as [|x stack].
    + destruct rooted; reflexivity.
    + cbn [sep_buf]. cbn [rev] in *. rewrite string_of_chars_app, IH.
      destruct (rev stack ++ [x])%list eqn:E.
      * destruct (rev stack); discriminate.
      * cbn [string_of_list_ascii]. rewrite !append_assoc. reflexivity.
Qed.

Lemma slashfree_chars e :
  slashfree e = true -> Forall nonsep (rev (chars e)).
Proof.
  intros H. apply Forall_forall. intros c Hc. apply in_rev in Hc.
  revert H Hc. unfold chars. induction e as [|x e IH]; cbn; [tauto|].
  rewrite slashfree_cons. intros H. apply andb_true_iff in H.
  destruct H as [Hx He]. intros [<-|Hc]; [|now apply IH].
  now apply negb_true_iff in Hx.
Qed.

Lemma chars_nonempty e : e <> "" -> chars e <> [].
Proof. destruct e; [congruence|discriminate]. Qed.

Lemma good_top rooted e stack :
  good rooted (e :: stack) = true -> slashfree e = true /\ e <> "".
Proof.
  intros H. apply good_elements in H. inversion H; subst. assumption.
Qed.

Lemma buf_length_pos rooted e stack :
  good rooted (e :: stack) = true ->
  (List.length (sep_buf rooted stack) < List.length (buf rooted (e :: stack)))%nat.
Proof.
  intros H. destruct (good_top _ _ _ H) as [_ Hne].
  rewrite buf_cons, length_app, length_rev.
  apply chars_nonempty in Hne.
  destruct (chars e); [congruence|cbn [List.length]; lia].
Qed.

Lemma sep_buf_length rooted stack :
  (List.length (buf rooted stack) <= List.length (sep_buf rooted stack))%nat.
Proof.
  destruct stack as [|e stack]; [reflexivity|].
  cbn [sep_buf List.length]. lia.
Qed.

Lemma need_slash rooted stack :
  good rooted stack = true ->
  filepath.add_slash rooted (buf rooted stack) = sep_buf rooted stack.
Proof.
  intros H. unfold filepath.add_slash. destruct stack as [|e stack].
  - destruct rooted; reflexivity.
  - pose proof (buf_length_pos _ _ _ H) as Hlen.
    assert (Hs : (1 <= List.length (sep_buf rooted stack))%nat \/ rooted = false).
    { destruct rooted; [left|now right].
      destruct stack; cbn; lia. }
    cbn [sep_buf].
    destruct rooted; cbn [andb orb negb].
    + destruct Hs as [Hs|]; [|discriminate].
      destruct (Nat.eqb_spec (List.length (buf true (e :: stack))) 1);
        [lia|reflexivity].
    + destruct (Nat.eqb_spec (List.length (buf false (e :: stack))) 0);
        [lia|reflexivity].
Qed.

Lemma dots_length stack :
  (List.length (buf false (dots stack)) <= List.length (buf false stack))%nat.
Proof.
  induction stack as [|e stack IH]; [cbn; lia|].
  cbn [dots]. destruct (is_dotdot e); [lia|].
  rewrite buf_cons, length_app.
  pose proof (sep_buf_length false stack). lia.
Qed.

Lemma dd_le_buf rooted stack :
  (dd rooted stack <= List.length (buf rooted stack))%nat.
Proof.
  unfold dd. destruct rooted; [|apply dots_length].
  destruct stack as [|e stack]; [cbn; lia|].
  rewrite buf_cons, length_app.
  destruct stack; cbn [sep_buf base List.length]; lia.
Qed.

Lemma dd_le rooted stack :
  (dd rooted stack <= List.length (sep_buf rooted stack))%nat.
Proof.
  pose proof (dd_le_buf rooted stack).
  pose proof (sep_buf_length rooted stack). lia.
Qed.

Lemma dd_real rooted e stack :
  is_dotdot e = false -> dd rooted (e :: stack) = dd rooted stack.
Proof. unfold dd. cbn [dots]. now intros ->. Qed.

Lemma backtrack_chars l d tail k :
  Forall nonsep l -> nonsep d -> (k <= List.length tail)%nat ->
  exists c, nonsep c /\
    filepath.backtrack d (l ++ tail) k = filepath.backtrack c tail k.
Proof.
  intros Hl. revert d. induction Hl as [|x l Hx _ IH]; intros d Hd Hk.
  - exists d. auto.
  - cbn [app filepath.backtrack]. rewrite Hd. cbn [negb andb].
    rewrite andb_true_r.
    replace (Nat.ltb k (List.length (x :: l ++ tail))) with true
      by (symmetry; apply Nat.ltb_lt; cbn; rewrite length_app; lia).
    apply IH; assumption.
Qed.

Lemma backtrack_sep_buf rooted stack c :
  nonsep c ->
  filepath.backtrack c (sep_buf rooted stack) (dd rooted stack)
  = buf rooted stack.
Proof.
  intros Hc. destruct stack as [|e stack].
  - destruct rooted; reflexivity.
  - cbn [sep_buf filepath.backtrack]. rewrite Hc. cbn [negb]. rewrite andb_true_r.
    pose proof (dd_le_buf rooted (e :: stack)) as Hle.
    replace (Nat.ltb _ _) with true
      by (symmetry; apply Nat.ltb_lt; cbn [List.length]; lia).
    destruct (buf rooted (e :: stack)) as [|x l]; [reflexivity|].
    cbn [filepath.backtrack]. unfold os.IsPathSeparator.
    rewrite Ascii.eqb_refl. cbn [negb]. rewrite andb_false_r. reflexivity.
Qed.

Lemma backtrack_pop rooted e stack d out' :
  good rooted (e :: stack) = true -> is_dotdot e = false ->
  buf rooted (e :: stack) = d :: out' ->
  filepath.backtrack d out' (dd rooted stack) = buf rooted stack.
Proof.
  intros Hg He Hb. destruct (good_top _ _ _ Hg) as [Hsf Hne].
  rewrite buf_cons in Hb.
  pose proof (slashfree_chars e Hsf) as Hall.
  destruct (rev (chars e)) as [|x l] eqn:E.
  - apply chars_nonempty in Hne. apply (f_equal (@rev ascii)) in E.
    rewrite rev_involutive in E. cbn in E. congruence.
  - cbn [app] in Hb. injection Hb as <- <-.
    inversion Hall as [|? ? Hx Hl]; subst.
    destruct (backtrack_chars l x (sep_buf rooted stack) (dd rooted stack)
                Hl Hx (dd_le rooted stack)) as [c [Hc ->]].
    now apply backtrack_sep_buf.
Qed.

Lemma copy_element_spec rest out :
  filepath.copy_element rest out
  = ((rev (chars (elem_of rest)) ++ out)%list, after_elem rest).
Proof.
  revert out. induction rest as [|c r IH]; intros out; [reflexivity|].
  cbn [filepath.copy_element elem_of after_elem].
  destruct (os.IsPathSeparator c); [reflexivity|].
  rewrite IH. unfold chars. cbn [list_ascii_of_string rev].
  rewrite <- app_assoc. reflexivity.
Qed.

Lemma elem_split rest :
  rest = elem_of rest ++ after_elem rest /\
  slashfree (elem_of rest) = true /\
  filepath.element_ends (after_elem rest) = true /\
  (String.length (after_elem rest) <= String.length rest)%nat.
Proof.
  induction rest as [|c r [IH1 [IH2 [IH3 IH4]]]]; [repeat split; auto|].
  cbn [elem_of after_elem].
  destruct (os.IsPathSeparator c) eqn:Hc.
  - split; [reflexivity|]. split; [reflexivity|]. split; [exact Hc|lia].
  - cbn [append]. repeat split.
    + now rewrite <- IH1.
    + rewrite slashfree_cons. change (os.IsPathSeparator c) with (Ascii.eqb c filepath.Separator) in Hc.
      rewrite Hc, IH2. reflexivity.
    + exact IH3.
    + cbn [String.length]. lia.
Qed.

Lemma scan_element rooted st e rest1 :
  slashfree e = true -> filepath.element_ends rest1 = true ->
  scan rooted st (strings.Split (e ++ rest1) filepath.Separator)
  = scan rooted (clean_elem rooted st e)
      (strings.Split rest1 filepath.Separator).
Proof.
  intros He Hr. destruct rest1 as [|c r].
  - rewrite append_nil_r, (Split_slashfree _ He). reflexivity.
  - cbn in Hr. unfold os.IsPathSeparator in Hr.
    apply Ascii.eqb_eq in Hr. subst c.
    rewrite Split_app_sep, (Split_slashfree _ He).
    cbn [strings.Split]. rewrite Ascii.eqb_refl. reflexivity.
Qed.

Lemma elem_of_empty r :
  elem_of r = "" -> filepath.element_ends r = true.
Proof.
  destruct r as [|c r]; [reflexivity|]. cbn.
  destruct (os.IsPathSeparator c); [reflexivity|discriminate].
Qed.

Lemma good_push rooted e stack :
  real e = true -> good rooted stack = true -> good rooted (e :: stack) = true.
Proof.
  intros He Hg. cbn [good].
  assert (is_dotdot e = false) as ->.
  { unfold real in He. unfold is_dotdot.
    destruct (e =? "..")%string; [|reflexivity].
    cbn in He. rewrite !andb_false_r in He. discriminate. }
  now rewrite He, Hg.
Qed.

Lemma real_not_dotdot e : real e = true -> is_dotdot e = false.
Proof.
  unfold real, is_dotdot. destruct (e =? "..")%string; [|reflexivity].
  cbn. rewrite !andb_false_r. discriminate.
Qed.

(** The step of the loop on a real element. *)
Lemma real_step rooted fuel' rest stack :
  (forall rest' stack',
     good rooted stack' = true ->
     (String.length rest' < fuel')%nat ->
     filepath.scan_bytes fuel' rooted rest' (buf rooted stack') (dd rooted stack')
     = buf rooted (scan rooted stack'
                     (strings.Split rest' filepath.Separator))) ->
  good rooted stack = true ->
  real (elem_of rest) = true ->
  (String.length (after_elem rest) < fuel')%nat ->
  (let '(out2, rest') :=
     filepath.copy_element rest (filepath.add_slash rooted (buf rooted stack)) in
   filepath.scan_bytes fuel' rooted rest' out2 (dd rooted stack))
  = buf rooted (scan rooted stack (strings.Split rest filepath.Separator)).
Proof.
  intros IH Hg He Hlen.
  rewrite (need_slash _ _ Hg), copy_element_spec.
  destruct (elem_split rest) as [Hsplit [Hsf [Hends _]]].
  rewrite Hsplit at 3.
  rewrite (scan_element rooted stack _ _ Hsf Hends).
  rewrite (clean_elem_real _ _ _ He).
  rewrite <- buf_cons, <- (dd_real rooted (elem_of rest) stack)
    by (now apply real_not_dotdot).
  apply IH; [now apply good_push|exact Hlen].
Qed.

Lemma scan_bytes_spec rooted fuel :
  forall rest stack,
    good rooted stack = true ->
    (String.length rest < fuel)%nat ->
    filepath.scan_bytes fuel rooted rest (buf rooted stack) (dd rooted stack)
    = buf rooted (scan rooted stack (strings.Split rest filepath.Separator)).
Proof.
  induction fuel as [|fuel' IH]; intros rest stack Hg Hlen; [lia|].
  destruct rest as [|c rest1]; [reflexivity|].
  cbn [String.length] in Hlen.
  cbn [filepath.scan_bytes].
  destruct (os.IsPathSeparator c) eqn:Hc.
  { (* a separator *)
    change (os.IsPathSeparator c) with (Ascii.eqb c filepath.Separator) in Hc.
    cbn [strings.Split]. rewrite Hc.
    rewrite IH by (assumption || lia). reflexivity. }
  destruct (Ascii.eqb c "." && filepath.element_ends rest1) eqn:Hdot.
  { (* the element [.] *)
    apply andb_true_iff in Hdot. destruct Hdot as [Hd Hends].
    apply Ascii.eqb_eq in Hd. subst c.
    change (String "." rest1) with ("." ++ rest1).
    rewrite (scan_element rooted stack "." rest1 eq_refl Hends).
    apply IH; [assumption|lia]. }
  assert (Hafter : (String.length (after_elem (String c rest1)) < fuel')%nat).
  { cbn [after_elem]. rewrite Hc.
    destruct (elem_split rest1) as [_ [_ [_ Hle]]]. lia. }
  assert (Hne : elem_of (String c rest1) <> "")
    by (cbn [elem_of]; rewrite Hc; discriminate).
  assert (Hsf : slashfree (elem_of (String c rest1)) = true)
    by apply elem_split.
  assert (Hnotdot : (elem_of (String c rest1) =? ".")%string = false).
  { apply String.eqb_neq. intros E. cbn [elem_of] in E. rewrite Hc in E.
    injection E as E1 E2. apply elem_of_empty in E2. subst c.
    rewrite E2 in Hdot. discriminate. }
  destruct rest1 as [|c1 rest2].
  { (* one byte, a real element *)
    apply (real_step rooted fuel' (String c "") stack IH Hg); [|exact Hafter].
    unfold real. rewrite Hnotdot, Hsf.
    apply String.eqb_neq in Hne. rewrite Hne.
    cbn [elem_of]. rewrite Hc. destruct c as [[] [] [] [] [] [] [] []];
      reflexivity. }
  destruct (Ascii.eqb c "." && Ascii.eqb c1 "." && filepath.element_ends rest2)
    eqn:Hdd.
  - (* the element [..] *)
    apply andb_true_iff in Hdd. destruct Hdd as [Hdd Hends].
    apply andb_true_iff in Hdd. destruct Hdd as [H1 H2].
    apply Ascii.eqb_eq in H1, H2. subst c c1.
    change (String "." (String "." rest2)) with (".." ++ rest2).
    rewrite (scan_element rooted stack ".." rest2 eq_refl Hends).
    cbn [String.length] in Hlen.
    destruct stack as [|top stack'].
    + (* nothing written *)
      destruct rooted.
      * apply (IH rest2 []); [reflexivity|lia].
      * apply (IH rest2 [".."]); [reflexivity|lia].
    + destruct (is_dotdot top) eqn:Htop.
      * (* a leading [..]: another one is written *)
        assert (rooted = false) as ->.
        { cbn [good] in Hg. rewrite Htop in Hg.
          destruct rooted; [discriminate|reflexivity]. }
        assert (Hdd' : dd false (top :: stack')
                       = List.length (buf false (top :: stack')))
          by (unfold dd; cbn [dots]; now rewrite Htop).
        assert (Hclean : clean_elem false (top :: stack') ".."
                         = ".." :: top :: stack').
        { unfold clean_elem. cbn [String.eqb orb].
          unfold is_dotdot in Htop. change (".." =? "..")%string with true.
          cbv iota. now rewrite Htop. }
        rewrite Hclean.
        assert (Hg2 : good false (".." :: top :: stack') = true).
        { cbn [good forallb] in *. change (is_dotdot "..") with true.
          cbv iota. rewrite Htop in *. cbn [negb andb] in *. exact Hg. }
        rewrite <- (IH rest2 (".." :: top :: stack') Hg2) by lia.
        destruct (buf false (top :: stack')) as [|d out'] eqn:Hb.
        { exfalso. pose proof (buf_length_pos _ _ _ Hg) as Hp.
          rewrite Hb in Hp. cbn in Hp. lia. }
        rewrite Hdd', Nat.ltb_irrefl. cbn [negb].
        f_equal.
        -- rewrite buf_cons. cbn [sep_buf]. rewrite Hb. reflexivity.
        -- unfold dd. cbn [dots]. change (is_dotdot "..") with true. cbv iota.
           rewrite buf_cons. cbn [sep_buf]. rewrite Hb. reflexivity.
      * (* a real element: it is taken back *)
        assert (Hclean : clean_elem rooted (top :: stack') ".."
                         = stack').
        { unfold clean_elem. cbn [String.eqb orb].
          unfold is_dotdot in Htop. change (".." =? "..")%string with true.
          cbv iota. now rewrite Htop. }
        rewrite Hclean.
        pose proof (good_tail _ _ _ Hg) as Hg'.
        rewrite <- (IH rest2 stack' Hg') by lia.
        rewrite (dd_real _ _ _ Htop).
        destruct (buf rooted (top :: stack')) as [|d out'] eqn:Hb.
        { exfalso. pose proof (buf_length_pos _ _ _ Hg) as Hp.
          rewrite Hb in Hp. cbn in Hp. lia. }
        assert (Hlt : Nat.ltb (dd rooted stack') (List.length (d :: out'))
                      = true).
        { apply Nat.ltb_lt. rewrite <- Hb.
          pose proof (buf_length_pos _ _ _ Hg).
          pose proof (dd_le rooted stack'). lia. }
        rewrite Hlt. f_equal.
        now apply (backtrack_pop rooted top stack').
  - (* a real element *)
    apply (real_step rooted fuel' _ stack IH Hg); [|exact Hafter].
    unfold real. rewrite Hnotdot, Hsf.
    apply String.eqb_neq in Hne. rewrite Hne. cbn [negb andb].
    rewrite andb_true_r. apply negb_true_iff, String.eqb_neq.
    intros E. cbn [elem_of] in E. rewrite Hc in E.
    injection E as E1 E2. subst c.
    destruct (os.IsPathSeparator c1) eqn:Hc1; [discriminate|].
    injection E2 as E2 E3. subst c1. apply elem_of_empty in E3.
    rewrite E3 in Hdd. discriminate.
Qed.

(** [filepath.Clean], the byte-by-byte algorithm, computes what the reading
    by elements says. *)
Lemma Clean_is_elements path : filepath.Clean path = Clean_elements path.
Proof.
  destruct path as [|c rest]; [reflexivity|].
  unfold filepath.Clean, Clean_elements, clean_elems.
  change (fold_left (clean_elem ?r) ?es []) with (scan r [] es).
  change (Ascii.eqb c filepath.Separator) with (os.IsPathSeparator c).
  destruct (os.IsPathSeparator c) eqn:Hc.
  - change (os.IsPathSeparator c) with (Ascii.eqb c filepath.Separator) in Hc. apply Ascii.eqb_eq in Hc. subst c.
    rewrite (scan_bytes_spec true _ rest [] eq_refl)
      by (cbn [String.length]; lia).
    change (strings.Split (String "/" rest) filepath.Separator)
      with (EmptyString :: strings.Split rest filepath.Separator).
    change (scan true [] (EmptyString :: ?es)) with (scan true [] es).
    set (stack := scan true [] (strings.Split rest filepath.Separator)).
    pose proof (buf_string true stack) as Hs.
    destruct (buf true stack) as [|d out] eqn:Hb.
    + exfalso. pose proof (dd_le_buf true stack) as Hle.
      rewrite Hb in Hle. cbn in Hle. lia.
    + rewrite Hs. reflexivity.
  - rewrite (scan_bytes_spec false _ (String c rest) [] eq_refl)
      by (cbn [String.length]; lia).
    set (stack := scan false [] _).
    assert (Hg : good false stack = true)
      by (apply scan_good; [apply Split_all_slashfree|reflexivity]).
    pose proof (buf_string false stack) as Hs. cbn [append] in Hs.
    destruct stack as [|e stack'] eqn:E; [reflexivity|].
    destruct (buf false (e :: stack')) as [|d out] eqn:Hb.
    + exfalso. pose proof (buf_length_pos _ _ _ Hg) as Hp.
      rewrite Hb in Hp. cbn in Hp. lia.
    + rewrite Hs. destruct (rev (e :: stack')) eqn:Er; [|reflexivity].
      apply (f_equal (@rev string)) in Er. rewrite rev_involutive in Er.
      discriminate.
Qed.

Lemma Clean_rooted s :
  filepath.Clean (String filepath.Separator s)
  = render (scan true [] (strings.Split s filepath.Separator)).
Proof. rewrite Clean_is_elements. reflexivity. Qed.

Lemma Clean_scan s :
  s <> "" ->
  filepath.Clean s
  = finish (rooted_of s)
      (scan (rooted_of s) [] (strings.Split s filepath.Separator)).
Proof.
  destruct s as [|c s]; [congruence|]. intros _.
  rewrite Clean_is_elements.
  unfold Clean_elements, finish, rooted_of, render, scan, clean_elems.
  destruct (Ascii.eqb c filepath.Separator); [reflexivity|].
  destruct (rev _); reflexivity.
Qed.

(** Only the empty scan is written as the root. *)
Lemma render_root out :
  Forall (fun e => real e = true) out ->
  (render out =? filepath.SeparatorString)%string = true <-> out = [].
Proof.
  intros Hout. split; [|intros ->; reflexivity].
  intros H. apply String.eqb_eq in H. unfold render in H.
  destruct (rev out) as [|e l] eqn:E.
  - apply (f_equal (@rev string)) in E. rewrite rev_involutive in E. exact E.
  - exfalso.
    assert (He : real e = true).
    { apply (proj1 (Forall_forall _ _) Hout). apply in_rev.
      rewrite E. now left. }
    apply real_nonempty in He.
    cbn in H. injection H as H.
    destruct l; [congruence|]. destruct e; [congruence|discriminate].
Qed.

Lemma buffer_app cs c :
  buffer (cs ++ [c]) = buffer cs ++ c ++ filepath.SeparatorString.
Proof.
  induction cs as [|x cs IH]; cbn [buffer app append]; [reflexivity|].
  rewrite IH, append_assoc. reflexivity.
Qed.

Lemma Split_buffer cs s :
  Forall (fun e => slashfree e = true) cs ->
  strings.Split (buffer cs ++ s) filepath.Separator
  = (cs ++ strings.Split s filepath.Separator)%list.
Proof.
  induction 1 as [|c cs Hc _ IH]; [reflexivity|].
  cbn [buffer]. rewrite append_assoc. cbn [append].
  rewrite Split_app_sep, IH, (Split_slashfree _ Hc). reflexivity.
Qed.

Lemma scan_skip_empty rooted out es :
  scan rooted out ("" :: es) = scan rooted out es.
Proof. reflexivity. Qed.

Lemma scan_trailing_empty rooted out es :
  scan rooted out (es ++ [""]) = scan rooted out es.
Proof. rewrite scan_app. reflexivity. Qed.

Lemma elems_cut rooted out st :
  unsafePath st <> "" ->
  scan rooted out (elems (unsafePath st))
  = scan rooted out (component st :: elems (remainder st)).
Proof.
  intros Hne. unfold component, remainder.
  destruct (next_component_spec (unsafePath st)) as [_ [[Hs Hc]|Hc]].
  - rewrite Hc. cbn [fst snd elems].
    destruct (unsafePath st) eqn:E; [congruence|].
    cbn [elems]. rewrite (Split_slashfree _ Hs). reflexivity.
  - destruct (unsafePath st) eqn:E; [congruence|]. rewrite <- E in *.
    assert (He : elems (unsafePath st)
                 = strings.Split (unsafePath st) filepath.Separator)
      by (rewrite E; reflexivity).
    rewrite He. rewrite Hc at 1. rewrite Split_app_sep.
    rewrite Split_slashfree
      by (apply (proj1 (next_component_spec (unsafePath st)))).
    cbn [app]. cbn [scan fold_left]. symmetry.
    apply (scan_elems rooted _ (snd (next_component (unsafePath st)))).
Qed.

Lemma cleanP_buffer st cs :
  Forall (fun e => slashfree e = true) cs ->
  path st = buffer cs ->
  cleanP st = render (scan true [] (cs ++ [component st])).
Proof.
  intros Hcs Hp. unfold cleanP. rewrite Hp.
  change (filepath.SeparatorString ++ buffer cs ++ component st)
    with (String filepath.Separator (buffer cs ++ component st)).
  rewrite Clean_rooted, (Split_buffer _ _ Hcs), Split_slashfree; [reflexivity|].
  apply (proj1 (next_component_spec (unsafePath st))).
Qed.

Lemma lexical_turn root vfs unsafePath0 st :
  lexical unsafePath0 st ->
  (examines st = true -> no_symlink_at vfs (fullP root st)) ->
  match turn root vfs st with
  | Continue st' => lexical unsafePath0 st'
  | Return r =>
      r = Ok (filepath.Clean
                (root ++ filepath.Clean
                           (filepath.SeparatorString ++ unsafePath0)))
  end.
Proof.
  intros [Hn [cs [Hcs [Hp Hscan]]]] Hno.
  destruct (unsafePath st =? "")%string eqn:Hne.
  - (* the loop is left *)
    unfold turn. rewrite Hne. apply String.eqb_eq in Hne.
    unfold epilogue. rewrite Hp.
    change (filepath.SeparatorString ++ buffer cs)
      with (String filepath.Separator (buffer cs)).
    change (filepath.SeparatorString ++ unsafePath0)
      with (String filepath.Separator unsafePath0).
    rewrite !Clean_rooted.
    rewrite <- (append_nil_r (buffer cs)), (Split_buffer _ _ Hcs).
    cbn [strings.Split]. rewrite scan_trailing_empty.
    rewrite Hne in Hscan. cbn [elems] in Hscan. rewrite app_nil_r in Hscan.
    rewrite Hscan, scan_elems. reflexivity.
  - pose proof (eqb_string_false _ Hne) as Hne'.
    assert (Hgt : (n st >? 255) = false) by (rewrite Hn; reflexivity).
    pose proof (cleanP_buffer st cs Hcs Hp) as HcP.
    assert (Hscan' :
              scan true (scan true [] (cs ++ [component st]))
                (elems (remainder st))
              = scan true [] (elems unsafePath0)).
    { rewrite <- Hscan, !scan_app. symmetry.
      apply (elems_cut true _ st Hne'). }
    destruct (cleanP st =? filepath.SeparatorString)%string eqn:Hc.
    + (* the scoped path is the root: the buffer is emptied *)
      rewrite (turn_clamps root vfs st Hne Hgt)
        by (now apply String.eqb_eq).
      split; [exact Hn|]. exists []. split; [constructor|].
      split; [reflexivity|]. cbn [app unsafePath].
      rewrite HcP in Hc. apply render_root in Hc.
      * rewrite Hc in Hscan'. exact Hscan'.
      * apply scan_rooted_real; [|constructor].
        apply Forall_app. split; [exact Hcs|].
        constructor; [|constructor].
        apply (proj1 (next_component_spec (unsafePath st))).
    + (* the component is accepted *)
      assert (Hex : examines st = true)
        by (unfold examines; rewrite Hne, Hgt, Hc; reflexivity).
      specialize (Hno Hex). unfold no_symlink_at in Hno.
      rewrite (turn_examines _ _ _ Hex).
      assert (Hacc : lexical unsafePath0 (accepted st)).
      { split; [exact Hn|]. exists (cs ++ [component st])%list.
        split; [|split].
        - apply Forall_app. split; [exact Hcs|].
          constructor; [|constructor].
          apply (proj1 (next_component_spec (unsafePath st))).
        - cbn [accepted path]. rewrite Hp, buffer_app. reflexivity.
        - cbn [accepted unsafePath]. rewrite scan_app. exact Hscan'. }
      destruct (Lstat vfs (fullP root st)) as [fi|err]; rewrite Hno;
        exact Hacc.
Qed.

Lemma rooted_of_app a b : a <> "" -> rooted_of (a ++ b) = rooted_of a.
Proof. destruct a; [congruence|reflexivity]. Qed.

Lemma append_nonempty a b : a <> "" -> a ++ b <> "".
Proof. destruct a; [congruence|discriminate]. Qed.

(** A doubled separator is cleaned as a single one. *)
Lemma Clean_doubled_separator a b :
  a <> "" ->
  filepath.Clean (a ++ String filepath.Separator (String filepath.Separator b))
  = filepath.Clean (a ++ String filepath.Separator b).
Proof.
  intros Ha.
  rewrite !Clean_scan by (now apply append_nonempty).
  rewrite !rooted_of_app by assumption.
  rewrite !Split_app_sep. cbn [strings.Split].
  rewrite Ascii.eqb_refl, !scan_app. reflexivity.
Qed.

(** Joining the root with a cleaned rooted path is cleaning the two put
    side by side, which is what the function computes. *)
Lemma Join_rooted root s :
  filepath.Join root (filepath.Clean (String filepath.Separator s))
  = filepath.Clean (root ++ filepath.Clean (String filepath.Separator s)).
Proof.
  rewrite Clean_rooted. unfold render.
  set (l := strings.Join _ _). cbn [append].
  destruct root as [|c root]; [reflexivity|].
  cbn [filepath.Join].
  apply (Clean_doubled_separator (String c root)). discriminate.
Qed.

(** [Clean] leaves what it has written as it is. *)
Lemma Clean_idempotent s :
  filepath.Clean (filepath.Clean s) = filepath.Clean s.
Proof.
  destruct (string_dec s "") as [->|Hs]; [reflexivity|].
  rewrite (Clean_scan s Hs).
  set (rt := rooted_of s).
  pose proof (scan_good rt _ [] (Split_all_slashfree s) eq_refl) as Hg.
  set (out := scan rt [] (strings.Split s filepath.Separator)) in *.
  pose proof (good_elements _ _ Hg) as Hel.
  assert (Hrev : Forall (fun e => slashfree e = true /\ e <> "") (rev out)).
  { apply Forall_forall. intros e He. apply in_rev in He.
    exact (proj1 (Forall_forall _ _) Hel e He). }
  assert (Hsf : Forall (fun e => slashfree e = true) (rev out)).
  { eapply Forall_impl; [|exact Hrev]. cbv beta. tauto. }
  pose proof (scan_written rt out Hg) as Hw.
  unfold finish. destruct rt.
  - unfold render. change ("/" ++ strings.Join (rev out) "/")
      with (String filepath.Separator (strings.Join (rev out) "/")).
    rewrite Clean_rooted. unfold render.
    destruct (rev out) as [|e l] eqn:E; [reflexivity|].
    rewrite Split_Join by (congruence || assumption).
    rewrite Hw, E. reflexivity.
  - destruct (rev out) as [|e l] eqn:E; [reflexivity|].
    inversion Hrev as [|? ? [He1 He2] _]; subst.
    destruct (Join_first e l He1 He2) as [Hne Hrt].
    rewrite (Clean_scan _ Hne), Hrt, Split_Join by (congruence || assumption).
    rewrite Hw. unfold finish. rewrite E. reflexivity.
Qed.

Lemma Clean_nonempty s : filepath.Clean s <> "".
Proof.
  rewrite Clean_is_elements.
  unfold Clean_elements. destruct s as [|c s]; [discriminate|].
  destruct (Ascii.eqb c filepath.Separator); [discriminate|].
  destruct (rev _) as [|e l] eqn:E; [discriminate|].
  set (out := clean_elems _ _) in *.
  assert (Hg : good false out = true)
    by (apply scan_good; [apply Split_all_slashfree|reflexivity]).
  pose proof (good_elements _ _ Hg) as Hel.
  assert (He : slashfree e = true /\ e <> "").
  { apply (proj1 (Forall_forall _ _) Hel). apply in_rev. rewrite E.
    now left. }
  apply (Join_first e l); tauto.
Qed.


Lemma scan_reals rooted out l :
  Forall (fun e => real e = true) l ->
  scan rooted out l = (rev l ++ out)%list.
Proof.
  intros H. revert out.
  induction H as [|e l He _ IH]; intros out; [reflexivity|].
  cbn [scan fold_left rev]. rewrite (clean_elem_real _ _ _ He).
  change (fold_left (clean_elem rooted) l (e :: out))
    with (scan rooted (e :: out) l).
  rewrite IH, <- app_assoc. reflexivity.
Qed.

Lemma prefix_app x y z :
  String.prefix y z = true -> String.prefix (x ++ y) (x ++ z) = true.
Proof.
  intros H. induction x as [|a x IH]; [exact H|].
  cbn [append String.prefix].
  destruct (ascii_dec a a); [exact IH|congruence].
Qed.

Lemma prefix_nil_l s : String.prefix "" s = true.
Proof. destruct s; reflexivity. Qed.

Lemma prefix_refl s : String.prefix s s = true.
Proof.
  rewrite <- (append_nil_r s) at 2. rewrite <- (append_nil_r s) at 1.
  apply prefix_app. reflexivity.
Qed.

Lemma Join_app_prefix a b :
  String.prefix (strings.Join a "/") (strings.Join (a ++ b) "/") = true.
Proof.
  induction a as [|x a IH]; [apply prefix_nil_l|].
  destruct a as [|y a].
  - cbn [app]. destruct b as [|z b]; [apply prefix_refl|].
    change (strings.Join (x :: z :: b) "/")
      with (x ++ "/" ++ strings.Join (z :: b) "/").
    cbn [strings.Join String.concat].
    rewrite <- (append_nil_r x) at 1. apply prefix_app, prefix_nil_l.
  - change (strings.Join (x :: y :: a) "/")
      with (x ++ "/" ++ strings.Join (y :: a) "/").
    change (strings.Join ((x :: y :: a) ++ b) "/")
      with (x ++ "/" ++ strings.Join ((y :: a) ++ b) "/").
    apply prefix_app. apply (prefix_app "/"). exact IH.
Qed.

Lemma IsAbs_rooted root :
  filepath.IsAbs root = true ->
  exists rest, root = String filepath.Separator rest.
Proof.
  destruct root as [|c rest]; [discriminate|].
  unfold filepath.IsAbs, strings.HasPrefix. cbn [String.prefix].
  destruct (ascii_dec "/" c) as [<-|]; [|discriminate]. eauto.
Qed.

(** With an absolute root, the path returned after the loop begins with
    the cleaned root. *)
Lemma Clean_root_prefix root p :
  filepath.IsAbs root = true ->
  strings.HasPrefix
    (filepath.Clean (root ++ filepath.Clean (filepath.SeparatorString ++ p)))
    (filepath.Clean root) = true.
Proof.
  intros Habs. destruct (IsAbs_rooted _ Habs) as [r0 ->].
  unfold strings.HasPrefix.
  change (filepath.SeparatorString ++ p) with (String filepath.Separator p).
  rewrite (Clean_rooted p). unfold render at 1.
  set (out2 := scan true [] (strings.Split p filepath.Separator)).
  assert (H2 : Forall (fun e => real e = true) out2)
    by (apply scan_rooted_real; [apply Split_all_slashfree|constructor]).
  change (String filepath.Separator r0 ++ "/" ++ strings.Join (rev out2) "/")
    with (String filepath.Separator
            (r0 ++ String filepath.Separator (strings.Join (rev out2) "/"))).
  rewrite !Clean_rooted, Split_app_sep, scan_app.
  set (out1 := scan true [] (strings.Split r0 filepath.Separator)).
  destruct (rev out2) as [|e l] eqn:E.
  - cbn [strings.Join String.concat strings.Split scan fold_left].
    apply prefix_refl.
  - assert (Hr : Forall (fun e => real e = true) (rev out2)).
    { apply Forall_forall. intros x Hx. apply in_rev in Hx.
      exact (proj1 (Forall_forall _ _) H2 x Hx). }
    rewrite E in Hr. rewrite Split_Join; [|discriminate|].
    + rewrite (scan_reals _ _ _ Hr). unfold render.
      rewrite rev_app_distr, rev_involutive.
      apply (prefix_app "/"), Join_app_prefix.
    + eapply Forall_impl; [|exact Hr]. cbv beta. intros a Ha.
      unfold real in Ha. apply andb_true_iff in Ha. tauto.
Qed.

(** ** Results and lookups *)

(** The two ways the function returns a path: after the loop, and from the
    short cut for an absolute target written with the root. *)
Lemma turn_return_ok root vfs st r :
  turn root vfs st = Return (Ok r) ->
  (unsafePath st = "" /\
   r = filepath.Clean
         (root ++ filepath.Clean (filepath.SeparatorString ++ path st)))
  \/
  (exists fi dest,
     examines st = true /\
     Lstat vfs (fullP root st) = Ok fi /\
     is_symlink fi = true /\
     Readlink vfs (fullP root st) = Ok dest /\
     filepath.IsAbs dest = true /\
     os.IsDir fi = false /\
     strings.HasPrefix dest (root ++ filepath.SeparatorString) = true /\
     r = filepath.Clean dest).
Proof.
  intros Hturn.
  destruct (unsafePath st =? "")%string eqn:Hne.
  - left. unfold turn in Hturn. rewrite Hne in Hturn.
    apply String.eqb_eq in Hne. injection Hturn as <-. auto.
  - right.
    destruct (n st >? 255) eqn:Hn;
      [rewrite turn_over in Hturn by assumption; discriminate|].
    destruct (cleanP st =? filepath.SeparatorString)%string eqn:Hc;
      [rewrite turn_clamps in Hturn
         by (assumption || now apply String.eqb_eq); discriminate|].
    assert (Hex : examines st = true)
      by (unfold examines; rewrite Hne, Hn, Hc; reflexivity).
    rewrite (turn_examines _ _ _ Hex) in Hturn.
    destruct (Lstat vfs (fullP root st)) as [fi|err];
      [|destruct (IsNotExist err); discriminate].
    destruct (is_symlink fi) eqn:Hsym; [|discriminate].
    destruct (Readlink vfs (fullP root st)) as [dest|err]; [|discriminate].
    destruct (filepath.IsAbs dest) eqn:Habs; [|discriminate].
    destruct (negb (os.IsDir fi)) eqn:Hd; [|discriminate].
    destruct (strings.HasPrefix dest _) eqn:Hp; [|discriminate].
    injection Hturn as <-. apply negb_true_iff in Hd.
    exists fi, dest. repeat split; assumption.
Qed.

(** Every path the function returns is one that [Clean] has written. *)
Lemma result_is_clean root unsafePath0 vfs r :
  SecureJoinVFS root unsafePath0 vfs = Ok r -> exists s, r = filepath.Clean s.
Proof.
  intros H. unfold SecureJoinVFS in H.
  destruct (loop_leaves root vfs (init unsafePath0)) as [st [_ Hturn]].
  rewrite H in Hturn.
  destruct (turn_return_ok _ _ _ _ Hturn)
    as [[_ ->]|[fi [dest [_ [_ [_ [_ [_ [_ [_ ->]]]]]]]]]]; eauto.
Qed.

Lemma lookups_turn root vfs st :
  lookups root vfs st =
  (lookup_of root st ++
   match turn root vfs st with
   | Return _ => []
   | Continue st' => lookups root vfs st'
   end)%list.
Proof.
  rewrite lookups_equation_1. unfold lookups_unfold_clause_1, inspect.
  destruct (turn root vfs st); [reflexivity|now rewrite app_nil_r].
Qed.

(** The errors [IsNotExist] recognises, bare or wrapped in a [PathError]. *)
Lemma IsNotExist_class :
  IsNotExist ErrNotExist = true /\
  IsNotExist (Errno syscall.ENOENT) = true /\
  IsNotExist (Errno syscall.ENOTDIR) = true /\
  (forall op name err,
     IsNotExist (PathError op name err) = IsNotExist err) /\
  IsNotExist (Errno syscall.EACCES) = false /\
  IsNotExist (Errno syscall.EIO) = false /\
  IsNotExist ErrPermission = false.
Proof.
  repeat split; reflexivity.
Qed.

Lemma fs_plain_no_symlink name : no_symlink_at fs_plain name.
Proof.
  unfold no_symlink_at, fs_plain, memfs.of_table. cbn [Lstat memfs.find].
  destruct ("/safe/a" =? name)%string; reflexivity.
Qed.

Lemma fs_rooted_link_not_dirs : symlinks_not_dirs fs_rooted_link.
Proof.
  intros name fi. unfold fs_rooted_link, memfs.of_table.
  cbn [Lstat memfs.find].
  destruct ("/safe/link" =? name)%string; [|discriminate].
  intros [= <-] _. reflexivity.
Qed.

(** ** The function without the [IsDir] test *)

Lemma loop_no_IsDir_turn root vfs st :
  loop_no_IsDir root vfs st =
  match turn_no_IsDir root vfs st with
  | Return r => r
  | Continue st' => loop_no_IsDir root vfs st'
  end.
Proof.
  rewrite loop_no_IsDir_equation_1.
  unfold loop_no_IsDir_unfold_clause_1, inspect.
  destruct (turn_no_IsDir root vfs st); reflexivity.
Qed.

Lemma turn_no_IsDir_same root vfs st :
  symlinks_not_dirs vfs -> turn_no_IsDir root vfs st = turn root vfs st.
Proof.
  intros Hvfs. unfold turn_no_IsDir, turn, body_no_IsDir, body.
  destruct (unsafePath st =? "")%string; [reflexivity|].
  destruct (n st >? 255); [reflexivity|].
  destruct (next_component (unsafePath st)) as [p rest].
  destruct (_ =? filepath.SeparatorString)%string; [reflexivity|].
  destruct (Lstat vfs _) as [fi|err] eqn:Hstat; [|reflexivity].
  destruct (Z.land (os.Mode fi) os.ModeSymlink =? 0) eqn:Hsym; [reflexivity|].
  rewrite (Hvfs _ fi Hstat) by (unfold is_symlink; now rewrite Hsym).
  reflexivity.
Qed.

(** ** The function on small file systems *)

(** A link to the parent is clamped at the root; an absolute link that
    leaves the root is taken from the root; a relative link whose target
    holds a further link is expanded link by link. *)
Example SecureJoinVFS_examples :
  SecureJoinVFS "/safe" "a/b"
    (memfs.of_table [("/safe/a", memfs.Symlink "..")])
  = Ok "/safe/b"
  /\
  SecureJoinVFS "/safe" "link"
    (memfs.of_table [("/safe/link", memfs.Symlink "/outside/target")])
  = Ok "/safe/outside/target"
  /\
  SecureJoinVFS "/safe" "l1/x"
    (memfs.of_table [("/safe/l1", memfs.Symlink "d/l2");
                     ("/safe/d", memfs.Dir);
                     ("/safe/d/l2", memfs.Symlink "../e")])
  = Ok "/safe/e/x".
Proof.
  repeat split; apply (SecureJoinVFS_fuel _ _ _ 20); reflexivity.
Qed.

(** * The claims *)

(** C1: with an absolute root, the path a call returns begins with the
    cleaned root unless it comes from the short cut, where it is the
    cleaned form of a non-directory link's absolute target that begins with
    [root] and a separator; and there the claim fails: the test is made on
    the raw target, so the link [/safe/link -> /safe/../etc/passwd] makes
    the call return [/etc/passwd], which is outside [/safe]. *)
Theorem short_cut_leaves_root :
  (forall root unsafePath0 vfs r,
     filepath.IsAbs root = true ->
     SecureJoinVFS root unsafePath0 vfs = Ok r ->
     strings.HasPrefix r (filepath.Clean root) = true
     \/
     exists st fi dest,
       steps root vfs (init unsafePath0) st /\
       examines st = true /\
       Lstat vfs (fullP root st) = Ok fi /\
       is_symlink fi = true /\
       Readlink vfs (fullP root st) = Ok dest /\
       filepath.IsAbs dest = true /\
       os.IsDir fi = false /\
       strings.HasPrefix dest (root ++ filepath.SeparatorString) = true /\
       r = filepath.Clean dest)
  /\
  SecureJoinVFS "/safe" "link" fs_escape = Ok "/etc/passwd"
  /\
  strings.HasPrefix "/etc/passwd" (filepath.Clean "/safe") = false
  /\
  strings.HasPrefix "/safe/../etc/passwd" ("/safe" ++ filepath.SeparatorString)
  = true.
Proof.
  split; [|repeat split; apply (SecureJoinVFS_fuel _ _ _ 10); reflexivity].
  intros root u vfs r Habs Hr. unfold SecureJoinVFS in Hr.
  destruct (loop_leaves root vfs (init u)) as [st [Hs Hturn]].
  rewrite Hr in Hturn.
  destruct (turn_return_ok _ _ _ _ Hturn) as [[_ ->]|[fi [dest H]]].
  - left. now apply Clean_root_prefix.
  - right. exists st, fi, dest. tauto.
Qed.

Lemma short_cut_leaves_root_witness :
  strings.HasPrefix "/safe/a/b" (filepath.Clean "/safe") = true
  \/
  exists st fi dest,
    steps "/safe" fs_plain (init "a/b") st /\
    examines st = true /\
    Lstat fs_plain (fullP "/safe" st) = Ok fi /\
    is_symlink fi = true /\
    Readlink fs_plain (fullP "/safe" st) = Ok dest /\
    filepath.IsAbs dest = true /\
    os.IsDir fi = false /\
    strings.HasPrefix dest ("/safe" ++ filepath.SeparatorString) = true /\
    "/safe/a/b" = filepath.Clean dest.
Proof.
  refine (proj1 short_cut_leaves_root "/safe" "a/b" fs_plain "/safe/a/b"
            eq_refl _).
  apply (SecureJoinVFS_fuel _ _ _ 10). reflexivity.
Defined.

(** C2, as the code has it: when no entry examined during the call is an
    existing symlink (each is reported absent, or present and no symlink),
    the call succeeds and its result is the lexical join of [root] with
    [unsafePath] cleaned as a rooted path, that is with its leading [..]
    elements dropped. *)
Theorem no_symlinks_lexical root unsafePath0 vfs :
  (forall st,
     steps root vfs (init unsafePath0) st ->
     examines st = true ->
     no_symlink_at vfs (fullP root st)) ->
  SecureJoinVFS root unsafePath0 vfs
  = Ok (filepath.Join root
          (filepath.Clean (filepath.SeparatorString ++ unsafePath0))).
Proof.
  intros Hno.
  change (filepath.SeparatorString ++ unsafePath0)
    with (String filepath.Separator unsafePath0).
  rewrite Join_rooted. unfold SecureJoinVFS.
  assert (Hinit : lexical unsafePath0 (init unsafePath0)).
  { split; [reflexivity|]. exists []. repeat split. constructor. }
  assert (Hreach : steps root vfs (init unsafePath0) (init unsafePath0))
    by apply steps_refl.
  revert Hinit Hreach. generalize (init unsafePath0) at 1 3 4 as st.
  induction st as [st IH] using (turn_ind root vfs). intros Hlex Hreach.
  pose proof (lexical_turn root vfs unsafePath0 st Hlex (Hno st Hreach))
    as Hturn.
  rewrite loop_turn.
  destruct (turn root vfs st) as [st'|r] eqn:E.
  - apply (IH st' eq_refl Hturn). eapply steps_snoc; eauto.
  - exact Hturn.
Qed.

Lemma no_symlinks_lexical_witness :
  SecureJoinVFS "/safe" "a/../../b//c/." fs_plain = Ok "/safe/b/c".
Proof.
  exact (no_symlinks_lexical "/safe" "a/../../b//c/." fs_plain
           (fun st _ _ => fs_plain_no_symlink (fullP "/safe" st))).
Defined.

(** C2, as stated, fails twice.  With no symlink anywhere, [../x] under
    [/safe] resolves to [/safe/x], while the join of [/safe] with the cleaned
    [../x] is [/x].  And where [Lstat] fails with [EACCES], no entry is
    reported as a symlink, yet the call does not succeed. *)
Lemma dotdot_not_plain_join :
  ((forall name, no_symlink_at fs_empty name) /\
   SecureJoinVFS "/safe" "../x" fs_empty = Ok "/safe/x" /\
   filepath.Join "/safe" (filepath.Clean "../x") = "/x")
  /\
  ((forall name fi,
      Lstat fs_denied name = Ok fi -> is_symlink fi = false) /\
   SecureJoinVFS "/safe" "x" fs_denied
   = Err (PathError "lstat" "/safe/x" (Errno syscall.EACCES))).
Proof.
  split; split.
  - intros name. reflexivity.
  - split; [|reflexivity].
    apply (SecureJoinVFS_fuel _ _ _ 10). reflexivity.
  - intros name fi. discriminate.
  - apply (SecureJoinVFS_fuel _ _ _ 10). reflexivity.
Qed.

(** C3: when the examined entry is an existing symlink whose stored target
    is absolute, then: if the entry is not a directory and the raw target
    begins with [root] followed by the separator, the turn returns the
    cleaned target, and that is the result of the whole call; otherwise the
    turn goes round again with the buffer emptied, the target and a
    separator put in front of what was left to parse, and the counter
    incremented. *)
Theorem absolute_symlink_target root vfs st fi dest :
  examines st = true ->
  Lstat vfs (fullP root st) = Ok fi ->
  is_symlink fi = true ->
  Readlink vfs (fullP root st) = Ok dest ->
  filepath.IsAbs dest = true ->
  (negb (os.IsDir fi)
   && strings.HasPrefix dest (root ++ filepath.SeparatorString) = true ->
   turn root vfs st = Return (Ok (filepath.Clean dest)) /\
   forall unsafePath0,
     steps root vfs (init unsafePath0) st ->
     SecureJoinVFS root unsafePath0 vfs = Ok (filepath.Clean dest))
  /\
  (negb (os.IsDir fi)
   && strings.HasPrefix dest (root ++ filepath.SeparatorString) = false ->
   turn root vfs st =
   Continue {| path := "";
               unsafePath := dest ++ filepath.SeparatorString ++ remainder st;
               n := n st + 1 |}).
Proof.
  intros Hex Hstat Hsym Hread Habs.
  assert (Hturn : turn root vfs st =
                  if negb (os.IsDir fi)
                     && strings.HasPrefix dest (root ++ filepath.SeparatorString)
                  then Return (Ok (filepath.Clean dest))
                  else Continue (expanded false dest st))
    by (rewrite (turn_examines _ _ _ Hex), Hstat, Hsym, Hread, Habs;
        reflexivity).
  split; intros Hc; rewrite Hc in Hturn.
  - split; [exact Hturn|]. intros u Hsteps.
    exact (loop_returns _ _ _ _ _ Hsteps Hturn).
  - exact Hturn.
Qed.

Lemma absolute_symlink_target_witness :
  SecureJoinVFS "/safe" "link" fs_rooted_link = Ok "/safe/file".
Proof.
  refine (proj2 (proj1 (absolute_symlink_target "/safe" fs_rooted_link
                          (init "link")
                          (memfs.info (memfs.Symlink "/safe/file"))
                          "/safe/file" _ _ _ _ _) _) "link" _);
    try reflexivity.
  apply steps_refl.
Defined.

(** C4, as stated, fails: along 255 relative links and a last link whose
    absolute target is written with the root, 256 links are dereferenced,
    which is more than 255, and the call succeeds. *)
Lemma rooted_link_after_255 :
  derefs "/r" fs_chain_rooted (init "a") = 256%nat /\
  SecureJoinVFS "/r" "a" fs_chain_rooted = Ok "/r/f".
Proof.
  pose proof fs_chain_rooted_run as Hs.
  assert (Hr : turn "/r" fs_chain_rooted
                 {| path := ""; unsafePath := letters 256 ++ "/"; n := 255 |}
               = Return (Ok "/r/f")) by (vm_compute; reflexivity).
  split.
  - apply Nat2Z.inj. rewrite (derefs_total _ _ _ _ _ Hs Hr).
    vm_compute. reflexivity.
  - exact (loop_returns _ _ _ _ _ Hs Hr).
Qed.

(** C4, as the code has it: the depth check fails exactly when 256
    dereferences occur and the turn that ends the call is not itself a
    dereference, that is when the loop comes round again after the 256th;
    the error is then the [ELOOP] error.  The counter is that of the whole
    call: the dereferences of a call are what the counter has reached, plus
    one when the last turn dereferences, and they never exceed 256.  A cycle
    of two links fails with the [ELOOP] error; chains of 254 and of 255 links
    that end at a file succeed, and one of 256 links fails. *)
Theorem depth_ceiling :
  (forall root unsafePath0 vfs st r,
     steps root vfs (init unsafePath0) st ->
     turn root vfs st = Return r ->
     Z.of_nat (derefs root vfs (init unsafePath0))
     = n st + Z.of_nat (one_if (dereferences root vfs st))
     /\
     (depth_check_fails st = true <->
      derefs root vfs (init unsafePath0) = 256%nat /\
      dereferences root vfs st = false)
     /\
     (depth_check_fails st = true ->
      r = Err (loop_error root (unsafePath st)) /\
      SecureJoinVFS root unsafePath0 vfs = r)
     /\
     (derefs root vfs (init unsafePath0) <= 256)%nat)
  /\
  SecureJoinVFS "/r" "a" fs_cycle = Err (loop_error "/r" "a/")
  /\
  SecureJoinVFS "/r" "a" fs_chain_254 = Ok ("/r/" ++ letters 255)
  /\
  SecureJoinVFS "/r" "a" fs_chain_255 = Ok ("/r/" ++ letters 256)
  /\
  SecureJoinVFS "/r" "a" fs_chain_256
  = Err (loop_error "/r" (letters 257 ++ "/")).
Proof.
  split; [|repeat split;
           apply (SecureJoinVFS_fuel _ _ _ 600); vm_compute; reflexivity].
  intros root u vfs st r Hs Hr.
  pose proof (derefs_total _ _ _ _ _ Hs Hr) as Htot.
  pose proof (depth_check_fails_iff _ _ _ _ Hs) as Hiff.
  pose proof (steps_counter _ _ _ _ Hs) as Hn. cbn in Hn.
  split; [exact Htot|]. split; [|split].
  - split.
    + intros Hf. pose proof (depth_check_not_deref root vfs _ Hf) as Hd.
      rewrite Hd in Htot. apply Hiff in Hf. cbn in Htot. split; [lia|exact Hd].
    + intros [H256 Hd]. apply Hiff. rewrite Hd in Htot. cbn in Htot. lia.
  - intros Hf. unfold depth_check_fails in Hf. apply andb_true_iff in Hf.
    destruct Hf as [Hne Hgt]. apply negb_true_iff in Hne.
    rewrite (turn_over root vfs _ Hne Hgt) in Hr. injection Hr as <-.
    split; [reflexivity|].
    apply (loop_returns _ _ _ _ _ Hs). now apply turn_over.
  - destruct (dereferences root vfs st) eqn:Hd; cbn in Htot; [|lia].
    assert (n st <> 256); [|lia].
    intros E. apply Hiff in E.
    rewrite (depth_check_not_deref root vfs _ E) in Hd. discriminate.
Qed.

Lemma depth_ceiling_witness :
  derefs "/r" fs_cycle (init "a") = 256%nat /\
  dereferences "/r" fs_cycle {| path := ""; unsafePath := "a/"; n := 256 |}
  = false.
Proof.
  exact (proj1 (proj1 (proj2 (proj1 depth_ceiling "/r" "a" fs_cycle
                               {| path := ""; unsafePath := "a/"; n := 256 |}
                               (Err (loop_error "/r" "a/"))
                               fs_cycle_run eq_refl)))
           eq_refl).
Defined.

(** C5: with any root and any VFS, [/../../../x] resolves to exactly what
    [/x] resolves to, value or error; and at any turn whose scoped path
    collapses to the root, the buffer is emptied and the loop goes on with
    what is left, without an error. *)
Theorem excess_dotdot_clamped root vfs :
  SecureJoinVFS root "/../../../x" vfs = SecureJoinVFS root "/x" vfs
  /\
  (forall st,
     (unsafePath st =? "")%string = false ->
     (n st >? 255) = false ->
     cleanP st = filepath.SeparatorString ->
     turn root vfs st =
     Continue {| path := ""; unsafePath := remainder st; n := n st |}).
Proof.
  split; [|apply turn_clamps].
  unfold SecureJoinVFS.
  rewrite (steps_loop root vfs (init "/../../../x") (init "x")).
  - rewrite (steps_loop root vfs (init "/x") (init "x")); [reflexivity|].
    apply (run_turns_steps root vfs 1). reflexivity.
  - apply (run_turns_steps root vfs 4). reflexivity.
Qed.

Lemma excess_dotdot_clamped_witness :
  turn "/safe" fs_denied (init "../x")
  = Continue {| path := ""; unsafePath := "x"; n := 0 |}.
Proof.
  exact (proj2 (excess_dotdot_clamped "/safe" fs_denied) (init "../x")
           eq_refl eq_refl eq_refl).
Defined.

(** C6: at a turn that examines an entry, an [Lstat] error outside the
    not-found class ends the call with that very error, and so does any
    [Readlink] error; an [Lstat] error of the not-found class (does not
    exist, not a directory) is no error, and the turn does exactly what it
    does for an entry that exists and is no symlink: it accepts the
    component. *)
Theorem lookup_errors root vfs st :
  examines st = true ->
  (forall err,
     Lstat vfs (fullP root st) = Err err -> IsNotExist err = false ->
     turn root vfs st = Return (Err err) /\
     forall unsafePath0,
       steps root vfs (init unsafePath0) st ->
       SecureJoinVFS root unsafePath0 vfs = Err err)
  /\
  (forall fi err,
     Lstat vfs (fullP root st) = Ok fi -> is_symlink fi = true ->
     Readlink vfs (fullP root st) = Err err ->
     turn root vfs st = Return (Err err) /\
     forall unsafePath0,
       steps root vfs (init unsafePath0) st ->
       SecureJoinVFS root unsafePath0 vfs = Err err)
  /\
  (forall err,
     Lstat vfs (fullP root st) = Err err -> IsNotExist err = true ->
     turn root vfs st = Continue (accepted st))
  /\
  (forall fi,
     Lstat vfs (fullP root st) = Ok fi -> is_symlink fi = false ->
     turn root vfs st = Continue (accepted st))
  /\
  (forall op name,
     IsNotExist (PathError op name ErrNotExist) = true /\
     IsNotExist (PathError op name (Errno syscall.ENOENT)) = true /\
     IsNotExist (PathError op name (Errno syscall.ENOTDIR)) = true).
Proof.
  intros Hex. pose proof (turn_examines root vfs st Hex) as Hturn.
  repeat split.
  - rewrite Hturn, H, H0. reflexivity.
  - intros u Hs. eapply loop_returns; [exact Hs|].
    rewrite Hturn, H, H0. reflexivity.
  - rewrite Hturn, H, H0, H1. reflexivity.
  - intros u Hs. eapply loop_returns; [exact Hs|].
    rewrite Hturn, H, H0, H1. reflexivity.
  - intros err H H0. rewrite Hturn, H, H0. reflexivity.
  - intros fi H H0. rewrite Hturn, H, H0. reflexivity.
Qed.

Lemma lookup_errors_witness :
  SecureJoinVFS "/safe" "a/b" fs_denied
  = Err (PathError "lstat" "/safe/a" (Errno syscall.EACCES)).
Proof.
  refine (proj2 (proj1 (lookup_errors "/safe" fs_denied (init "a/b") _)
                   (PathError "lstat" "/safe/a" (Errno syscall.EACCES)) _ _)
            "a/b" _);
    try reflexivity.
  apply steps_refl.
Defined.

(** C7, as the code has it: when the depth check fails, the call returns a
    [PathError] with [Op] "SecureJoin", [Err] [ELOOP] and as [Path] the root,
    a separator and the value of [unsafePath] at the time of the check, which
    is the target of the link read last, a separator, and what was left to
    parse then; it is not the [unsafePath] the caller passed. *)
Theorem loop_error_carries_remainder root unsafePath0 vfs st :
  steps root vfs (init unsafePath0) st ->
  depth_check_fails st = true ->
  SecureJoinVFS root unsafePath0 vfs
  = Err (PathError "SecureJoin"
           (root ++ "/" ++ unsafePath st) (Errno syscall.ELOOP))
  /\
  exists prev dest,
    steps root vfs (init unsafePath0) prev /\
    turn root vfs prev = Continue st /\
    Readlink vfs (fullP root prev) = Ok dest /\
    unsafePath st = dest ++ filepath.SeparatorString ++ remainder prev.
Proof.
  intros Hs Hfail. split.
  - eapply loop_returns; [exact Hs|].
    unfold depth_check_fails in Hfail. apply andb_true_iff in Hfail.
    destruct Hfail as [Hne Hn]. apply negb_true_iff in Hne.
    now rewrite turn_over.
  - pose proof (proj1 (depth_check_fails_iff _ _ _ _ Hs) Hfail) as H256.
    destruct (steps_last _ _ _ _ Hs) as [<-|[prev [Hp Hturn]]];
      [discriminate|].
    exists prev. pose proof (turn_continue _ _ _ _ Hturn) as [H255 Hcase].
    destruct Hcase as [[_ [H1 _]]|[_ [_ [dest [Hr Hu]]]]]; [lia|].
    exists dest. auto.
Qed.

Lemma loop_error_carries_remainder_witness :
  SecureJoinVFS "/r" "a" fs_cycle
  = Err (PathError "SecureJoin" "/r/a/" (Errno syscall.ELOOP)).
Proof.
  exact (proj1 (loop_error_carries_remainder "/r" "a" fs_cycle
                  {| path := ""; unsafePath := "a/"; n := 256 |}
                  fs_cycle_run eq_refl)).
Defined.

(** C7, as stated, fails: in the two-link cycle the depth check fails, and
    the error names [/r/a/], not the [/r/a] made of the caller's pair. *)
Lemma loop_error_not_original :
  (exists st, steps "/r" fs_cycle (init "a") st /\
              depth_check_fails st = true) /\
  SecureJoinVFS "/r" "a" fs_cycle
  = Err (PathError "SecureJoin" "/r/a/" (Errno syscall.ELOOP)) /\
  SecureJoinVFS "/r" "a" fs_cycle <> Err (loop_error "/r" "a").
Proof.
  assert (H : SecureJoinVFS "/r" "a" fs_cycle
              = Err (PathError "SecureJoin" "/r/a/" (Errno syscall.ELOOP))).
  { eapply loop_returns; [exact fs_cycle_run|reflexivity]. }
  split; [|split].
  - eexists. split; [exact fs_cycle_run|reflexivity].
  - exact H.
  - rewrite H. discriminate.
Qed.

(** C8: the function terminates on every input: some number of turns
    yields its result; every turn that goes round again either consumes a
    component, leaving the counter alone and [unsafePath] shorter, or adds
    one to the counter; the counter stays within [0 .. 256]; and the relation
    from a state to the next is well founded. *)
Theorem resolve_terminates root unsafePath0 vfs :
  (exists fuel,
     loop_fuel root vfs fuel (init unsafePath0)
     = Some (SecureJoinVFS root unsafePath0 vfs))
  /\
  (forall st st',
     steps root vfs (init unsafePath0) st ->
     turn root vfs st = Continue st' ->
     (n st' = n st /\ unsafePath st' = remainder st /\
      (String.length (unsafePath st') < String.length (unsafePath st))%nat)
     \/ n st' = n st + 1)
  /\
  (forall st, steps root vfs (init unsafePath0) st -> 0 <= n st <= 256)
  /\
  well_founded (fun st' st => turn root vfs st = Continue st').
Proof.
  split; [apply loop_fuel_enough|]. split; [|split].
  - intros st st' _ Hturn.
    pose proof (turn_continue _ _ _ _ Hturn) as [_ [[_ [H1 H2]]|[_ [H1 _]]]];
      [left|now right].
    split; [exact H1|]. split; [exact H2|]. rewrite H2.
    unfold remainder.
    destruct (next_component (unsafePath st)) as [p rest] eqn:Hc.
    apply (next_component_shorter _ p rest); [|exact Hc].
    intros E. unfold turn in Hturn. rewrite E in Hturn. discriminate.
  - intros st Hs. apply steps_counter in Hs; cbn in *; lia.
  - intros st. induction st as [st IH] using (turn_ind root vfs).
    constructor. exact IH.
Qed.




(** C10: for a VFS that never reports an entry as both a symlink and a
    directory, the function equals the function without the [IsDir] test;
    and at a turn that reads an absolute target from a link, the short cut
    is taken exactly when the raw target begins with [root] followed by the
    separator. *)
Theorem IsDir_test_redundant root unsafePath0 vfs :
  symlinks_not_dirs vfs ->
  SecureJoinVFS root unsafePath0 vfs
  = SecureJoinVFS_no_IsDir root unsafePath0 vfs
  /\
  (forall st fi dest,
     examines st = true ->
     Lstat vfs (fullP root st) = Ok fi ->
     is_symlink fi = true ->
     Readlink vfs (fullP root st) = Ok dest ->
     filepath.IsAbs dest = true ->
     (turn root vfs st = Return (Ok (filepath.Clean dest)) <->
      strings.HasPrefix dest (root ++ filepath.SeparatorString) = true)).
Proof.
  intros Hvfs. split.
  - unfold SecureJoinVFS, SecureJoinVFS_no_IsDir.
    generalize (init unsafePath0) as st.
    induction st as [st IH] using (turn_ind root vfs).
    rewrite loop_turn, loop_no_IsDir_turn, (turn_no_IsDir_same _ _ _ Hvfs).
    destruct (turn root vfs st) as [st'|r] eqn:E; [|reflexivity].
    now apply IH.
  - intros st fi dest Hex Hstat Hsym Hread Habs.
    rewrite (turn_examines _ _ _ Hex), Hstat, Hsym, Hread, Habs.
    rewrite (Hvfs _ fi Hstat Hsym). cbn [negb andb].
    destruct (strings.HasPrefix dest _); split; congruence.
Qed.

Lemma IsDir_test_redundant_witness :
  SecureJoinVFS "/safe" "link" fs_rooted_link
  = SecureJoinVFS_no_IsDir "/safe" "link" fs_rooted_link.
Proof.
  exact (proj1 (IsDir_test_redundant "/safe" "link" fs_rooted_link
                  fs_rooted_link_not_dirs)).
Defined.

(** Without the hypothesis on the VFS the two functions can differ. *)
Lemma IsDir_test_matters :
  SecureJoinVFS "/safe" "link" fs_link_dir = Ok "/safe/safe/file" /\
  SecureJoinVFS_no_IsDir "/safe" "link" fs_link_dir = Ok "/safe/file".
Proof.
  split.
  - apply (SecureJoinVFS_fuel _ _ _ 10). reflexivity.
  - unfold SecureJoinVFS_no_IsDir. rewrite loop_no_IsDir_turn. reflexivity.
Qed.

(** * Part V: further properties of the code *)

(** ** [IsNotExist] *)





(** ** The next component *)

(** X2: splitting off the next component loses nothing: the component has
    no separator; either [unsafePath] has none and is the component, with
    nothing left, or it is the component, one separator and what is left;
    and what is left of a path that is not empty is shorter than the path. *)
Theorem next_component_round_trip unsafePath0 :
  let p := fst (next_component unsafePath0) in
  let rest := snd (next_component unsafePath0) in
  strings.IndexRune p filepath.Separator = -1
  /\
  ((strings.IndexRune unsafePath0 filepath.Separator = -1 /\
    p = unsafePath0 /\ rest = "")
   \/
   (strings.IndexRune unsafePath0 filepath.Separator <> -1 /\
    unsafePath0 = p ++ filepath.SeparatorString ++ rest))
  /\
  (unsafePath0 <> "" ->
   (String.length rest < String.length unsafePath0)%nat).
Proof.
  cbv zeta. destruct (next_component_spec unsafePath0) as [Hp Hcase].
  split; [now apply Z.eqb_eq|]. split.
  - destruct (Z.eq_dec (strings.IndexRune unsafePath0 filepath.Separator) (-1))
      as [E|E].
    + left. unfold next_component.
      rewrite (proj2 (Z.eqb_eq _ _) E). auto.
    + right. split; [exact E|].
      destruct Hcase as [[Hs _]|Hc]; [|exact Hc].
      apply Z.eqb_eq in Hs. contradiction.
  - intros Hne.
    destruct (next_component unsafePath0) as [p rest] eqn:E.
    exact (next_component_shorter _ _ _ Hne E).
Qed.

(** ** Leading elements of the untrusted path *)

(** X3: an untrusted path that is absolute, or that begins with [.] or
    [..], resolves as the path without that beginning does: a leading
    separator, [./] and [../] are dropped, with any root, any VFS and any
    rest of the path, whether the call succeeds or fails. *)
Theorem leading_elements_dropped root p vfs :
  SecureJoinVFS root ("/" ++ p) vfs = SecureJoinVFS root p vfs
  /\
  SecureJoinVFS root ("./" ++ p) vfs = SecureJoinVFS root p vfs
  /\
  SecureJoinVFS root ("../" ++ p) vfs = SecureJoinVFS root p vfs.
Proof.
  unfold SecureJoinVFS. repeat split.
  - rewrite loop_turn.
    change (turn root vfs (init ("/" ++ p))) with (Continue (init p)).
    reflexivity.
  - rewrite loop_turn.
    change (turn root vfs (init ("./" ++ p))) with (Continue (init p)).
    reflexivity.
  - rewrite loop_turn.
    change (turn root vfs (init ("../" ++ p))) with (Continue (init p)).
    reflexivity.
Qed.

(** ** Relative link targets *)

(** X4: when the examined entry is a symlink whose target is not absolute,
    the turn never returns: it goes round again with the buffer as it was
    (the name of the link is not written to it, so the target is read from
    the directory that holds the link), the target and a separator put in
    front of what was left, and the counter incremented; and the result of
    the call is that of the loop run from these locals. *)
Theorem relative_symlink_target root vfs st fi dest :
  examines st = true ->
  Lstat vfs (fullP root st) = Ok fi ->
  is_symlink fi = true ->
  Readlink vfs (fullP root st) = Ok dest ->
  filepath.IsAbs dest = false ->
  turn root vfs st =
  Continue {| path := path st;
              unsafePath := dest ++ filepath.SeparatorString ++ remainder st;
              n := n st + 1 |}
  /\
  forall unsafePath0,
    steps root vfs (init unsafePath0) st ->
    SecureJoinVFS root unsafePath0 vfs
    = loop root vfs
        {| path := path st;
           unsafePath := dest ++ filepath.SeparatorString ++ remainder st;
           n := n st + 1 |}.
Proof.
  intros Hex Hstat Hsym Hread Habs.
  assert (Hturn : turn root vfs st = Continue (expanded true dest st))
    by (rewrite (turn_examines _ _ _ Hex), Hstat, Hsym, Hread, Habs;
        reflexivity).
  split; [exact Hturn|]. intros u Hs. unfold SecureJoinVFS.
  rewrite (steps_loop _ _ _ _ Hs), loop_turn, Hturn. reflexivity.
Qed.

Lemma relative_symlink_target_witness :
  SecureJoinVFS "/safe" "d/l/x" fs_relative_link
  = loop "/safe" fs_relative_link
      {| path := "d/"; unsafePath := "../e/x"; n := 1 |}.
Proof.
  refine (proj2 (relative_symlink_target "/safe" fs_relative_link
                   {| path := "d/"; unsafePath := "l/x"; n := 0 |}
                   (memfs.info (memfs.Symlink "../e")) "../e"
                   eq_refl eq_refl eq_refl eq_refl eq_refl)
            "d/l/x" _).
  apply (run_turns_steps "/safe" fs_relative_link 1). reflexivity.
Defined.

(** ** Where errors come from *)

Lemma turn_return_err root vfs st e :
  turn root vfs st = Return (Err e) ->
  (depth_check_fails st = true /\ e = loop_error root (unsafePath st))
  \/
  (examines st = true /\
   ((Lstat vfs (fullP root st) = Err e /\ IsNotExist e = false)
    \/
    exists fi,
      Lstat vfs (fullP root st) = Ok fi /\ is_symlink fi = true /\
      Readlink vfs (fullP root st) = Err e)).
Proof.
  intros Hturn.
  destruct (unsafePath st =? "")%string eqn:Hne;
    [unfold turn, epilogue in Hturn; rewrite Hne in Hturn; discriminate|].
  destruct (n st >? 255) eqn:Hn.
  - left. rewrite turn_over in Hturn by assumption.
    injection Hturn as <-. unfold depth_check_fails.
    rewrite Hne, Hn. auto.
  - right.
    destruct (cleanP st =? filepath.SeparatorString)%string eqn:Hc;
      [rewrite turn_clamps in Hturn
         by (assumption || now apply String.eqb_eq); discriminate|].
    assert (Hex : examines st = true)
      by (unfold examines; rewrite Hne, Hn, Hc; reflexivity).
    split; [exact Hex|].
    rewrite (turn_examines _ _ _ Hex) in Hturn.
    destruct (Lstat vfs (fullP root st)) as [fi|err].
    + right. exists fi. split; [reflexivity|].
      destruct (is_symlink fi); [|discriminate]. split; [reflexivity|].
      destruct (Readlink vfs (fullP root st)) as [dest|err].
      * destruct (filepath.IsAbs dest);
          [destruct (negb _ && _)|]; discriminate.
      * now injection Hturn as <-.
    + left. destruct (IsNotExist err) eqn:Hi; [discriminate|].
      now injection Hturn as <-.
Qed.

(** X5: the function makes up one error only.  When a call fails, its
    error is the [ELOOP] error of a depth check that failed, or the very
    error that [Lstat] gave for an examined entry, which is then outside the
    not-found class, or the very error that [Readlink] gave for an entry that
    [Lstat] had reported as a symlink.  So an error of the not-found class
    can only be one that [Readlink] returned. *)
Theorem errors_come_from root unsafePath0 vfs e :
  SecureJoinVFS root unsafePath0 vfs = Err e ->
  (exists st,
     steps root vfs (init unsafePath0) st /\
     ((depth_check_fails st = true /\ e = loop_error root (unsafePath st))
      \/
      (examines st = true /\
       ((Lstat vfs (fullP root st) = Err e /\ IsNotExist e = false)
        \/
        exists fi,
          Lstat vfs (fullP root st) = Ok fi /\ is_symlink fi = true /\
          Readlink vfs (fullP root st) = Err e))))
  /\
  (IsNotExist e = true -> exists name, Readlink vfs name = Err e).
Proof.
  intros H. unfold SecureJoinVFS in H.
  destruct (loop_leaves root vfs (init unsafePath0)) as [st [Hs Hturn]].
  rewrite H in Hturn. apply turn_return_err in Hturn.
  split; [exists st; auto|].
  intros Hi.
  destruct Hturn as [[_ ->]|[_ [[_ Hf]|[fi [_ [_ Hr]]]]]].
  - discriminate.
  - congruence.
  - eauto.
Qed.

Lemma errors_come_from_witness :
  (exists st,
     steps "/safe" fs_denied (init "a/b") st /\
     ((depth_check_fails st = true /\
       PathError "lstat" "/safe/a" (Errno syscall.EACCES)
       = loop_error "/safe" (unsafePath st))
      \/
      (examines st = true /\
       ((Lstat fs_denied (fullP "/safe" st)
         = Err (PathError "lstat" "/safe/a" (Errno syscall.EACCES)) /\
         IsNotExist (PathError "lstat" "/safe/a" (Errno syscall.EACCES))
         = false)
        \/
        exists fi,
          Lstat fs_denied (fullP "/safe" st) = Ok fi /\
          is_symlink fi = true /\
          Readlink fs_denied (fullP "/safe" st)
          = Err (PathError "lstat" "/safe/a" (Errno syscall.EACCES))))))
  /\
  (IsNotExist (PathError "lstat" "/safe/a" (Errno syscall.EACCES)) = true ->
   exists name,
     Readlink fs_denied name
     = Err (PathError "lstat" "/safe/a" (Errno syscall.EACCES))).
Proof.
  refine (errors_come_from "/safe" "a/b" fs_denied
            (PathError "lstat" "/safe/a" (Errno syscall.EACCES)) _).
  apply (SecureJoinVFS_fuel _ _ _ 10). reflexivity.
Defined.

(** ** The shape of the result *)

Lemma IsAbs_cons s : filepath.IsAbs (String filepath.Separator s) = true.
Proof.
  unfold filepath.IsAbs, strings.HasPrefix, filepath.Separator.
  cbn [String.prefix].
  destruct (ascii_dec "/" "/"); [apply prefix_nil_l|congruence].
Qed.

Lemma Clean_rooted_abs s :
  filepath.IsAbs s = true -> filepath.IsAbs (filepath.Clean s) = true.
Proof.
  intros H. destruct (IsAbs_rooted _ H) as [rest ->].
  rewrite Clean_rooted. apply IsAbs_cons.
Qed.

(** X6: a path the function returns is never empty and is lexically clean
    ([Clean] leaves it as it is); it is absolute when the root is.  The same
    holds of [SecureJoin], with the VFS of the operating system. *)
Theorem result_clean_absolute root unsafePath0 vfs r :
  SecureJoinVFS root unsafePath0 vfs = Ok r ->
  r <> "" /\
  filepath.Clean r = r /\
  (filepath.IsAbs root = true -> filepath.IsAbs r = true) /\
  (forall osVFS r',
     SecureJoin osVFS root unsafePath0 = Ok r' ->
     r' <> "" /\ filepath.Clean r' = r' /\
     (filepath.IsAbs root = true -> filepath.IsAbs r' = true)).
Proof.
  assert (Hall : forall v x,
            SecureJoinVFS root unsafePath0 v = Ok x ->
            x <> "" /\ filepath.Clean x = x /\
            (filepath.IsAbs root = true -> filepath.IsAbs x = true)).
  { intros v x Hx.
    destruct (result_is_clean _ _ _ _ Hx) as [s Hs].
    split; [rewrite Hs; apply Clean_nonempty|].
    split; [rewrite Hs; apply Clean_idempotent|].
    intros Habs. unfold SecureJoinVFS in Hx.
    destruct (loop_leaves root v (init unsafePath0)) as [st [_ Hturn]].
    rewrite Hx in Hturn.
    destruct (turn_return_ok _ _ _ _ Hturn)
      as [[_ ->]|[fi [dest [_ [_ [_ [_ [Hd [_ [_ ->]]]]]]]]]].
    - apply Clean_rooted_abs.
      destruct (IsAbs_rooted _ Habs) as [rest ->]. apply IsAbs_cons.
    - now apply Clean_rooted_abs. }
  intros H. destruct (Hall vfs r H) as [H1 [H2 H3]].
  repeat split; try assumption; apply (Hall osVFS r'); assumption.
Qed.

Lemma result_clean_absolute_witness :
  "/safe/b/c" <> "" /\
  filepath.Clean "/safe/b/c" = "/safe/b/c" /\
  (filepath.IsAbs "/safe" = true -> filepath.IsAbs "/safe/b/c" = true) /\
  (forall osVFS r',
     SecureJoin osVFS "/safe" "a/../../b//c/." = Ok r' ->
     r' <> "" /\ filepath.Clean r' = r' /\
     (filepath.IsAbs "/safe" = true -> filepath.IsAbs r' = true)).
Proof.
  refine (result_clean_absolute "/safe" "a/../../b//c/." fs_plain
            "/safe/b/c" _).
  apply (SecureJoinVFS_fuel _ _ _ 10). reflexivity.
Defined.

(** ** The names handed to the VFS *)

Lemma lookups_In root vfs st0 name :
  In name (lookups root vfs st0) <->
  exists st,
    steps root vfs st0 st /\ examines st = true /\ name = fullP root st.
Proof.
  split.
  - revert name. induction st0 as [st0 IH] using (turn_ind root vfs).
    intros name. rewrite lookups_turn. intros H. apply in_app_or in H.
    destruct H as [H|H].
    + unfold lookup_of in H. destruct (examines st0) eqn:Hex; [|destruct H].
      destruct H as [<-|[]]. exists st0.
      split; [apply steps_refl|auto].
    + destruct (turn root vfs st0) as [st1|r] eqn:Hturn; [|destruct H].
      destruct (IH st1 eq_refl name H) as [st [Hs Hrest]].
      exists st. split; [eapply steps_turn; eauto|exact Hrest].
  - intros [st [Hs [Hex ->]]].
    induction Hs as [st|st st1 st2 Hturn _ IH]; rewrite lookups_turn.
    + apply in_or_app. left. unfold lookup_of. rewrite Hex. now left.
    + apply in_or_app. right. rewrite Hturn. now apply IH.
Qed.

Lemma length_append a b :
  String.length (a ++ b) = (String.length a + String.length b)%nat.
Proof. induction a as [|c a IH]; cbn; [reflexivity|now rewrite IH]. Qed.

Lemma render_longer out2 out1 :
  out2 <> [] -> Forall (fun e => real e = true) out2 ->
  (String.length (render out1) < String.length (render (out2 ++ out1)))%nat.
Proof.
  intros Hne H. induction H as [|e out2 He Hrest IH]; [congruence|].
  assert (Hstep : forall out,
            (String.length (render out)
             < String.length (render (e :: out)))%nat).
  { intros out. unfold render. cbn [rev]. rewrite Join_snoc.
    apply real_nonempty in He.
    destruct (rev out) as [|x l].
    - cbn [strings.Join String.concat]. rewrite !length_append.
      destruct e; [congruence|cbn; lia].
    - rewrite !length_append. cbn [String.length]. lia. }
  destruct out2 as [|e' out2'].
  - apply Hstep.
  - cbn [app] in *. specialize (IH ltac:(discriminate)).
    specialize (Hstep (e' :: out2' ++ out1)%list). lia.
Qed.

(** Under an absolute root, the root and a cleaned rooted path put side by
    side clean to the elements of the one followed by those of the other. *)
Lemma Clean_under_root r0 p :
  filepath.Clean
    (String filepath.Separator r0
     ++ filepath.Clean (filepath.SeparatorString ++ p))
  = render (scan true [] (strings.Split p filepath.Separator)
            ++ scan true [] (strings.Split r0 filepath.Separator)).
Proof.
  change (filepath.SeparatorString ++ p) with (String filepath.Separator p).
  rewrite (Clean_rooted p). unfold render at 1.
  set (out2 := scan true [] (strings.Split p filepath.Separator)).
  assert (H2 : Forall (fun e => real e = true) out2)
    by (apply scan_rooted_real; [apply Split_all_slashfree|constructor]).
  change (String filepath.Separator r0 ++ "/" ++ strings.Join (rev out2) "/")
    with (String filepath.Separator
            (r0 ++ String filepath.Separator (strings.Join (rev out2) "/"))).
  rewrite Clean_rooted, Split_app_sep, scan_app.
  set (out1 := scan true [] (strings.Split r0 filepath.Separator)).
  destruct (rev out2) as [|e l] eqn:E.
  - apply (f_equal (@rev string)) in E. rewrite rev_involutive in E.
    rewrite E. reflexivity.
  - assert (Hr : Forall (fun e => real e = true) (rev out2)).
    { apply Forall_forall. intros x Hx. apply in_rev in Hx.
      exact (proj1 (Forall_forall _ _) H2 x Hx). }
    rewrite E in Hr. rewrite Split_Join; [|discriminate|].
    + rewrite (scan_reals _ _ _ Hr), <- E, rev_involutive. reflexivity.
    + eapply Forall_impl; [|exact Hr]. cbv beta. intros a Ha.
      unfold real in Ha. apply andb_true_iff in Ha. tauto.
Qed.

(** What is handed to the VFS at a turn that examines an entry. *)
Lemma fullP_below_root root st :
  examines st = true ->
  filepath.Clean (fullP root st) = fullP root st /\
  (filepath.IsAbs root = true ->
   strings.HasPrefix (fullP root st) (filepath.Clean root) = true /\
   fullP root st <> filepath.Clean root).
Proof.
  intros Hex. split; [apply Clean_idempotent|]. intros Habs.
  split; [now apply Clean_root_prefix|].
  destruct (IsAbs_rooted _ Habs) as [r0 ->].
  unfold fullP, cleanP. rewrite Clean_under_root, Clean_rooted.
  set (out2 := scan true [] _). set (out1 := scan true [] _).
  assert (H2 : Forall (fun e => real e = true) out2)
    by (apply scan_rooted_real; [apply Split_all_slashfree|constructor]).
  assert (Hne : out2 <> []).
  { intros E. unfold examines in Hex.
    apply andb_true_iff in Hex. destruct Hex as [_ Hc].
    apply negb_true_iff in Hc. unfold cleanP in Hc.
    change (filepath.SeparatorString ++ path st ++ component st)
      with (String filepath.Separator (path st ++ component st)) in Hc.
    rewrite Clean_rooted in Hc. fold out2 in Hc. rewrite E in Hc.
    discriminate. }
  pose proof (render_longer out2 out1 Hne H2) as Hlen.
  intros E. rewrite E in Hlen. lia.
Qed.

(** X7: every name the function hands to [Lstat] or [Readlink] is a clean
    path; and with an absolute root it begins with the cleaned root and is
    not the cleaned root itself: the function looks at nothing outside the
    root, and never at the root. *)
Theorem lookups_below_root root unsafePath0 vfs name :
  In name (lookups root vfs (init unsafePath0)) ->
  filepath.Clean name = name /\
  (filepath.IsAbs root = true ->
   strings.HasPrefix name (filepath.Clean root) = true /\
   name <> filepath.Clean root).
Proof.
  intros H. apply lookups_In in H. destruct H as [st [_ [Hex ->]]].
  now apply fullP_below_root.
Qed.

Lemma lookups_below_root_witness :
  filepath.Clean "/safe/d/l" = "/safe/d/l" /\
  (filepath.IsAbs "/safe" = true ->
   strings.HasPrefix "/safe/d/l" (filepath.Clean "/safe") = true /\
   "/safe/d/l" <> filepath.Clean "/safe").
Proof.
  refine (lookups_below_root "/safe" "d/l/x" fs_relative_link "/safe/d/l" _).
  apply lookups_In. exists {| path := "d/"; unsafePath := "l/x"; n := 0 |}.
  split; [|split; reflexivity].
  apply (run_turns_steps "/safe" fs_relative_link 1). reflexivity.
Defined.

(** ** What the result depends on *)

Lemma turn_same_answers root vfs vfs' st :
  (examines st = true -> same_answers vfs vfs' (fullP root st)) ->
  turn root vfs' st = turn root vfs st.
Proof.
  intros H. destruct (examines st) eqn:Hex.
  - destruct (H eq_refl) as [Hl Hr].
    rewrite !(turn_examines _ _ _ Hex), Hl, Hr. reflexivity.
  - clear H. unfold examines, cleanP, component in Hex.
    unfold turn, body.
    destruct (unsafePath st =? "")%string; [reflexivity|].
    destruct (n st >? 255); [reflexivity|].
    destruct (next_component (unsafePath st)) as [p rest].
    cbn [fst negb andb] in Hex.
    destruct (_ =? filepath.SeparatorString)%string;
      [reflexivity|discriminate].
Qed.

Lemma loop_same_answers root vfs vfs' st :
  (forall name, In name (lookups root vfs st) -> same_answers vfs vfs' name) ->
  loop root vfs' st = loop root vfs st /\
  lookups root vfs' st = lookups root vfs st.
Proof.
  induction st as [st IH] using (turn_ind root vfs). intros H.
  rewrite lookups_turn in H.
  assert (Hturn : turn root vfs' st = turn root vfs st).
  { apply turn_same_answers. intros Hex. apply H, in_or_app. left.
    unfold lookup_of. rewrite Hex. now left. }
  rewrite (loop_turn root vfs'), (loop_turn root vfs),
    (lookups_turn root vfs'), (lookups_turn root vfs), Hturn.
  destruct (turn root vfs st) as [st'|r] eqn:E; [|split; reflexivity].
  destruct (IH st' eq_refl) as [IH1 IH2].
  - intros name Hin. apply H, in_or_app. now right.
  - rewrite IH1, IH2. split; reflexivity.
Qed.

(** X8: the result depends on the VFS only through the answers for the
    names the call hands to it: a VFS that answers [Lstat] and [Readlink]
    alike for those names gives the same result, value or error, and is
    handed the same names. *)
Theorem result_depends_on_lookups root unsafePath0 vfs vfs' :
  (forall name,
     In name (lookups root vfs (init unsafePath0)) ->
     same_answers vfs vfs' name) ->
  SecureJoinVFS root unsafePath0 vfs' = SecureJoinVFS root unsafePath0 vfs /\
  lookups root vfs' (init unsafePath0) = lookups root vfs (init unsafePath0).
Proof. apply loop_same_answers. Qed.

(** X9: with an absolute root, what lies outside the root has no part in
    the result: two VFS that answer alike for every name that begins with
    the cleaned root give the same result, value or error. *)
Theorem outside_root_ignored root unsafePath0 vfs vfs' :
  filepath.IsAbs root = true ->
  (forall name,
     strings.HasPrefix name (filepath.Clean root) = true ->
     same_answers vfs vfs' name) ->
  SecureJoinVFS root unsafePath0 vfs' = SecureJoinVFS root unsafePath0 vfs.
Proof.
  intros Habs H. apply loop_same_answers. intros name Hin.
  apply H. apply lookups_In in Hin. destruct Hin as [st [_ [Hex ->]]].
  now apply fullP_below_root.
Qed.

Lemma fs_plain_beside_same name :
  strings.HasPrefix name (filepath.Clean "/safe") = true ->
  same_answers fs_plain fs_plain_beside name.
Proof.
  intros H. unfold same_answers, fs_plain_beside. cbn [Lstat Readlink].
  destruct (name =? "/other")%string eqn:E; [|split; reflexivity].
  apply String.eqb_eq in E. subst name. discriminate.
Qed.

Lemma result_depends_on_lookups_witness :
  SecureJoinVFS "/safe" "a/b" fs_plain_beside
  = SecureJoinVFS "/safe" "a/b" fs_plain /\
  lookups "/safe" fs_plain_beside (init "a/b")
  = lookups "/safe" fs_plain (init "a/b").
Proof.
  refine (result_depends_on_lookups "/safe" "a/b" fs_plain fs_plain_beside _).
  intros name Hin. apply fs_plain_beside_same.
  apply lookups_In in Hin. destruct Hin as [st [_ [Hex ->]]].
  now apply fullP_below_root.
Defined.

Lemma outside_root_ignored_witness :
  SecureJoinVFS "/safe" "a/b" fs_plain_beside
  = SecureJoinVFS "/safe" "a/b" fs_plain.
Proof.
  exact (outside_root_ignored "/safe" "a/b" fs_plain fs_plain_beside
           eq_refl fs_plain_beside_same).
Defined.

(** ** The buffer holds no symlink *)

Lemma checked_nil root vfs : checked root vfs [].
Proof. intros k Hk. cbn in Hk. lia. Qed.

Lemma checked_tail root vfs e stack :
  checked root vfs (e :: stack) -> checked root vfs stack.
Proof.
  intros H k Hk. apply (H (S k)). cbn [List.length]. lia.
Qed.

Lemma checked_cons root vfs e stack :
  no_symlink_at vfs (filepath.Clean (root ++ render (e :: stack))) ->
  checked root vfs stack -> checked root vfs (e :: stack).
Proof.
  intros He H [|k] Hk; [exact He|].
  cbn [skipn]. apply H. cbn [List.length] in Hk. lia.
Qed.

Lemma checked_clean_elem root vfs stack p :
  checked root vfs stack ->
  (clean_elem true stack p <> [] ->
   no_symlink_at vfs
     (filepath.Clean (root ++ render (clean_elem true stack p)))) ->
  checked root vfs (clean_elem true stack p).
Proof.
  intros H Hp. revert Hp. unfold clean_elem.
  destruct ((p =? "") || (p =? "."))%string; [intros _; exact H|].
  destruct (p =? "..")%string.
  - destruct stack as [|top stack']; [intros _; apply checked_nil|].
    destruct (top =? "..")%string.
    + intros Hp. apply checked_cons; [apply Hp; discriminate|exact H].
    + intros _. now apply checked_tail in H.
  - intros Hp. apply checked_cons; [apply Hp; discriminate|exact H].
Qed.

Lemma buffer_checked_turn root vfs st st' :
  buffer_checked root vfs st ->
  turn root vfs st = Continue st' ->
  buffer_checked root vfs st'.
Proof.
  intros [cs [Hcs [Hp Hch]]] Hturn.
  assert (Hempty : forall u k,
            buffer_checked root vfs {| path := ""; unsafePath := u; n := k |}).
  { intros u k. exists []. split; [constructor|].
    split; [reflexivity|apply checked_nil]. }
  destruct (unsafePath st =? "")%string eqn:Hne;
    [unfold turn in Hturn; rewrite Hne in Hturn; discriminate|].
  destruct (n st >? 255) eqn:Hn;
    [rewrite turn_over in Hturn by assumption; discriminate|].
  destruct (cleanP st =? filepath.SeparatorString)%string eqn:Hc.
  { rewrite turn_clamps in Hturn
      by (assumption || now apply String.eqb_eq).
    injection Hturn as <-. apply Hempty. }
  assert (Hex : examines st = true)
    by (unfold examines; rewrite Hne, Hn, Hc; reflexivity).
  pose proof (cleanP_buffer st cs Hcs Hp) as HcP.
  assert (Hcomp : slashfree (component st) = true)
    by apply (proj1 (next_component_spec (unsafePath st))).
  assert (Hacc : no_symlink_at vfs (fullP root st) ->
                 buffer_checked root vfs (accepted st)).
  { intros Hno. exists (cs ++ [component st])%list.
    split; [apply Forall_app; split; [exact Hcs|now constructor]|].
    split; [cbn [accepted path]; now rewrite Hp, buffer_app|].
    rewrite scan_app. cbn [scan fold_left].
    apply checked_clean_elem; [exact Hch|]. intros _.
    unfold fullP in Hno. rewrite HcP, scan_app in Hno. exact Hno. }
  rewrite (turn_examines _ _ _ Hex) in Hturn. unfold no_symlink_at in Hacc.
  destruct (Lstat vfs (fullP root st)) as [fi|err].
  - destruct (is_symlink fi) eqn:Hsym.
    + destruct (Readlink vfs (fullP root st)) as [dest|err]; [|discriminate].
      destruct (filepath.IsAbs dest).
      * destruct (negb _ && _); [discriminate|].
        injection Hturn as <-. apply Hempty.
      * injection Hturn as <-. exists cs. auto.
    + injection Hturn as <-. now apply Hacc.
  - destruct (IsNotExist err) eqn:Hi; [|discriminate].
    injection Hturn as <-. now apply Hacc.
Qed.

Lemma buffer_checked_steps root vfs st st' :
  steps root vfs st st' ->
  buffer_checked root vfs st -> buffer_checked root vfs st'.
Proof.
  induction 1 as [|st st1 st2 Hturn _ IH]; [auto|].
  intros H. apply IH. eapply buffer_checked_turn; eauto.
Qed.

Lemma buffer_checked_init root vfs unsafePath0 :
  buffer_checked root vfs (init unsafePath0).
Proof.
  exists []. split; [constructor|]. split; [reflexivity|apply checked_nil].
Qed.

Lemma Clean_buffer cs :
  Forall (fun e => slashfree e = true) cs ->
  filepath.Clean (filepath.SeparatorString ++ buffer cs)
  = render (scan true [] cs).
Proof.
  intros Hcs.
  change (filepath.SeparatorString ++ buffer cs)
    with (String filepath.Separator (buffer cs)).
  rewrite Clean_rooted, <- (append_nil_r (buffer cs)), (Split_buffer _ _ Hcs).
  cbn [strings.Split]. apply f_equal, scan_trailing_empty.
Qed.

(** X10: what the comment in the loop says of the buffer holds.  At every
    turn of every call the buffer is made of whole components, and for each
    of the elements they clean to, the root followed by the elements up to
    that one names an entry that [Lstat] did not report as a symlink; and a
    path returned after the loop is the root followed by such elements: no
    part of it below the root is reported as a symlink. *)
Theorem buffer_holds_no_symlink root unsafePath0 vfs :
  (forall st,
     steps root vfs (init unsafePath0) st -> buffer_checked root vfs st)
  /\
  (forall st,
     steps root vfs (init unsafePath0) st ->
     unsafePath st = "" ->
     exists stack,
       Forall (fun e => real e = true) stack /\
       checked root vfs stack /\
       SecureJoinVFS root unsafePath0 vfs
       = Ok (filepath.Clean (root ++ render stack))).
Proof.
  assert (Hinv : forall st,
            steps root vfs (init unsafePath0) st ->
            buffer_checked root vfs st).
  { intros st Hs.
    exact (buffer_checked_steps _ _ _ _ Hs (buffer_checked_init _ _ _)). }
  split; [exact Hinv|].
  intros st Hs Hu. destruct (Hinv st Hs) as [cs [Hcs [Hp Hch]]].
  exists (scan true [] cs). split; [|split; [exact Hch|]].
  - apply scan_rooted_real; [exact Hcs|constructor].
  - apply (loop_returns _ _ _ _ _ Hs). unfold turn, epilogue.
    rewrite Hu, Hp, (Clean_buffer _ Hcs). reflexivity.
Qed.

Lemma buffer_holds_no_symlink_witness :
  exists stack,
    Forall (fun e => real e = true) stack /\
    checked "/safe" fs_plain stack /\
    SecureJoinVFS "/safe" "a/x/../b" fs_plain
    = Ok (filepath.Clean ("/safe" ++ render stack)).
Proof.
  assert (Hs : steps "/safe" fs_plain (init "a/x/../b")
                 {| path := "a/x/../b/"; unsafePath := ""; n := 0 |}).
  { apply (run_turns_steps _ _ 4). reflexivity. }
  exact (proj2 (buffer_holds_no_symlink "/safe" "a/x/../b" fs_plain)
           _ Hs eq_refl).
Defined.

(** ** Resolving the result again *)

Lemma real_slashfree e : real e = true -> slashfree e = true.
Proof.
  unfold real. intros H. apply andb_true_iff in H. tauto.
Qed.

Lemma reals_slashfree l :
  Forall (fun e => real e = true) l ->
  Forall (fun e => slashfree e = true) l.
Proof.
  intros H. eapply Forall_impl; [|exact H]. apply real_slashfree.
Qed.

Lemma cut_unique e1 e2 s1 s2 :
  slashfree e1 = true -> slashfree e2 = true ->
  e1 ++ String filepath.Separator s1 = e2 ++ String filepath.Separator s2 ->
  e1 = e2 /\ s1 = s2.
Proof.
  revert e2. induction e1 as [|c e1 IH]; intros [|c2 e2] H1 H2 E;
    cbn [append] in E.
  - injection E as ->. auto.
  - injection E as <- _. discriminate.
  - injection E as -> _. discriminate.
  - injection E as -> E.
    rewrite slashfree_cons in H1, H2.
    apply andb_true_iff in H1, H2.
    destruct (IH e2 (proj2 H1) (proj2 H2) E) as [-> ->]. auto.
Qed.

Lemma slashfree_cut e s : slashfree (e ++ String filepath.Separator s) = false.
Proof.
  induction e as [|c e IH]; cbn [append]; rewrite slashfree_cons.
  - reflexivity.
  - rewrite IH. apply andb_false_r.
Qed.

Lemma next_component_cut e s :
  slashfree e = true ->
  next_component (e ++ String filepath.Separator s) = (e, s).
Proof.
  intros He.
  destruct (next_component_spec (e ++ String filepath.Separator s))
    as [Hf [[Hs _]|Hc]].
  - rewrite slashfree_cut in Hs. discriminate.
  - destruct (next_component (e ++ String filepath.Separator s)) as [p rest].
    cbn [fst snd] in *.
    destruct (cut_unique _ _ _ _ He Hf Hc) as [-> ->]. reflexivity.
Qed.

Lemma next_component_Join e es :
  slashfree e = true ->
  next_component (strings.Join (e :: es) "/") = (e, strings.Join es "/").
Proof.
  intros He. destruct es as [|e' es].
  - cbn. unfold next_component. unfold slashfree in He. now rewrite He.
  - change (strings.Join (e :: e' :: es) "/")
      with (e ++ String filepath.Separator (strings.Join (e' :: es) "/")).
    now apply next_component_cut.
Qed.

(** Real elements whose names are checked are accepted one after the
    other. *)
Lemma loop_checked root vfs es :
  forall pre k,
    k <= 255 ->
    Forall (fun e => real e = true) pre ->
    Forall (fun e => real e = true) es ->
    es <> [] ->
    (forall j, (j < List.length es)%nat ->
       no_symlink_at vfs
         (filepath.Clean
            (root ++ render (rev (pre ++ firstn (S j) es))))) ->
    loop root vfs {| path := buffer pre;
                     unsafePath := strings.Join es "/";
                     n := k |}
    = Ok (filepath.Clean (root ++ render (rev (pre ++ es)))).
Proof.
  induction es as [|e es IH]; intros pre k Hk Hpre Hes Hne Hno; [congruence|].
  inversion Hes as [|? ? He Hes']; subst.
  pose proof (real_slashfree _ He) as Hsf.
  pose proof (real_nonempty _ He) as Hnon.
  set (st := {| path := buffer pre;
                unsafePath := strings.Join (e :: es) "/";
                n := k |}).
  assert (Hnc : next_component (unsafePath st) = (e, strings.Join es "/"))
    by (apply next_component_Join; exact Hsf).
  assert (Hcl : cleanP st = render (rev (pre ++ [e]))).
  { rewrite (cleanP_buffer st pre (reals_slashfree _ Hpre) eq_refl).
    unfold component. rewrite Hnc. cbn [fst].
    rewrite scan_reals, app_nil_r; [reflexivity|].
    apply Forall_app. split; [exact Hpre|now constructor]. }
  assert (Hex : examines st = true).
  { unfold examines. rewrite Hcl.
    destruct (Join_first e es Hsf Hnon) as [Hj _].
    apply String.eqb_neq in Hj. cbn [unsafePath n st]. rewrite Hj.
    replace (k >? 255) with false
      by (symmetry; rewrite Z.gtb_ltb; apply Z.ltb_ge; lia).
    cbn [negb andb].
    destruct (render (rev (pre ++ [e])) =? filepath.SeparatorString)%string
      eqn:E; [|reflexivity].
    apply render_root in E.
    - rewrite rev_app_distr in E. discriminate.
    - apply Forall_rev, Forall_app. split; [exact Hpre|now constructor]. }
  assert (Hturn : turn root vfs st = Continue (accepted st)).
  { rewrite (turn_examines _ _ _ Hex).
    pose proof (Hno 0%nat ltac:(cbn [List.length]; lia)) as H0.
    cbn [firstn] in H0. unfold no_symlink_at in H0.
    unfold fullP. rewrite Hcl.
    destruct (Lstat vfs _) as [fi|err]; rewrite H0; reflexivity. }
  rewrite loop_turn, Hturn.
  assert (Hacc : accepted st
                 = {| path := buffer (pre ++ [e]);
                      unsafePath := strings.Join es "/";
                      n := k |}).
  { unfold accepted, component, remainder. rewrite Hnc.
    cbn [fst snd st path n]. now rewrite buffer_app. }
  rewrite Hacc. destruct es as [|e' es'].
  - rewrite loop_turn. unfold turn, epilogue. cbn [unsafePath path String.eqb strings.Join String.concat].
    rewrite Clean_buffer, scan_reals, app_nil_r; [reflexivity| |].
    + apply Forall_app. split; [exact Hpre|now constructor].
    + apply reals_slashfree, Forall_app. split; [exact Hpre|now constructor].
  - rewrite (IH (pre ++ [e])%list k Hk); [| |exact Hes'|discriminate|].
    + now rewrite <- app_assoc.
    + apply Forall_app. split; [exact Hpre|now constructor].
    + intros j Hj. rewrite <- app_assoc. cbn [app].
      apply (Hno (S j)). cbn [List.length] in *. lia.
Qed.

(** X11: a result reached after the loop is a fixed point of the call.
    When the loop is left (no short cut, no error) with the buffer [path],
    the path returned is [root] followed by [rel = Clean("/" + path)], and
    joining [rel] to the same root again, with the same VFS, returns the
    same path: nothing in it is left to dereference. *)
Theorem result_resolves_to_itself root unsafePath0 vfs st :
  steps root vfs (init unsafePath0) st ->
  unsafePath st = "" ->
  let rel := filepath.Clean (filepath.SeparatorString ++ path st) in
  SecureJoinVFS root unsafePath0 vfs = Ok (filepath.Clean (root ++ rel))
  /\
  SecureJoinVFS root rel vfs = Ok (filepath.Clean (root ++ rel)).
Proof.
  intros Hs Hu rel.
  assert (H1 : SecureJoinVFS root unsafePath0 vfs
               = Ok (filepath.Clean (root ++ rel))).
  { apply (loop_returns _ _ _ _ _ Hs). unfold turn, epilogue.
    rewrite Hu. reflexivity. }
  split; [exact H1|].
  destruct (buffer_checked_steps _ _ _ _ Hs (buffer_checked_init _ _ _))
    as [cs [Hcs [Hp Hch]]].
  assert (Hreal : Forall (fun e => real e = true) (scan true [] cs))
    by (apply scan_rooted_real; [exact Hcs|constructor]).
  assert (Hrel : rel = render (scan true [] cs))
    by (unfold rel; rewrite Hp; now apply Clean_buffer).
  rewrite Hrel. set (stack := scan true [] cs) in *.
  unfold SecureJoinVFS. rewrite loop_turn.
  change (turn root vfs (init (render stack)))
    with (Continue (init (strings.Join (rev stack) "/"))).
  cbv iota.
  destruct (rev stack) as [|e es] eqn:E.
  - rewrite loop_turn. unfold render. rewrite E. reflexivity.
  - rewrite <- E.
    change (init (strings.Join (rev stack) "/"))
      with {| path := buffer [];
              unsafePath := strings.Join (rev stack) "/";
              n := 0 |}.
    rewrite (loop_checked root vfs (rev stack) [] 0).
    + cbn [app]. now rewrite rev_involutive.
    + lia.
    + constructor.
    + now apply Forall_rev.
    + rewrite E. discriminate.
    + intros j Hj. cbn [app]. rewrite length_rev in Hj.
      rewrite firstn_rev, rev_involutive.
      apply Hch. lia.
Qed.

Lemma result_resolves_to_itself_witness :
  SecureJoinVFS "/safe" "a/x/../b" fs_plain = Ok "/safe/a/b"
  /\
  SecureJoinVFS "/safe" "/a/b" fs_plain = Ok "/safe/a/b".
Proof.
  assert (Hs : steps "/safe" fs_plain (init "a/x/../b")
                 {| path := "a/x/../b/"; unsafePath := ""; n := 0 |}).
  { apply (run_turns_steps _ _ 4). reflexivity. }
  exact (result_resolves_to_itself "/safe" "a/x/../b" fs_plain _ Hs eq_refl).
Defined.

(** ** What is read of the VFS *)

Lemma turn_same_kind root vfs vfs' st :
  (forall name, same_kind (Lstat vfs name) (Lstat vfs' name)) ->
  (forall name fi,
     Lstat vfs name = Ok fi -> is_symlink fi = true ->
     Readlink vfs' name = Readlink vfs name) ->
  turn root vfs' st = turn root vfs st.
Proof.
  intros HL HR. destruct (examines st) eqn:Hex.
  - rewrite !(turn_examines _ _ _ Hex).
    specialize (HL (fullP root st)). specialize (HR (fullP root st)).
    unfold same_kind in HL.
    destruct (Lstat vfs (fullP root st)) as [fi|err],
             (Lstat vfs' (fullP root st)) as [fi'|err'];
      try contradiction; [|now subst].
    destruct HL as [Hs Hd]. rewrite Hs.
    destruct (is_symlink fi) eqn:E; [|reflexivity].
    rewrite (HR fi eq_refl E), (Hd eq_refl). reflexivity.
  - apply turn_same_answers. congruence.
Qed.

(** X12: of an answer of [Lstat] the call reads the error, or else only
    whether the entry is a symlink and, for a symlink, whether it is a
    directory; and [Readlink] counts only for the names [Lstat] reports as
    symlinks.  Two VFS that agree on that much give the same result, value
    or error, whatever else they say (permission bits, the directory flag
    of entries that are no links, targets of names that are no links). *)
Theorem only_link_facts_read root unsafePath0 vfs vfs' :
  (forall name, same_kind (Lstat vfs name) (Lstat vfs' name)) ->
  (forall name fi,
     Lstat vfs name = Ok fi -> is_symlink fi = true ->
     Readlink vfs' name = Readlink vfs name) ->
  SecureJoinVFS root unsafePath0 vfs' = SecureJoinVFS root unsafePath0 vfs.
Proof.
  intros HL HR. unfold SecureJoinVFS. generalize (init unsafePath0).
  intros st. induction st as [st IH] using (turn_ind root vfs).
  rewrite (loop_turn root vfs'), (loop_turn root vfs),
    (turn_same_kind root vfs vfs' st HL HR).
  destruct (turn root vfs st) as [st'|r] eqn:E; [|reflexivity].
  now apply IH.
Qed.

Lemma fs_plain_files_same_kind name :
  same_kind (Lstat fs_plain name) (Lstat fs_plain_files name).
Proof.
  unfold same_kind, fs_plain_files. cbn [Lstat].
  pose proof (fs_plain_no_symlink name) as H. unfold no_symlink_at in H.
  destruct (Lstat fs_plain name) as [fi|err]; [|reflexivity].
  rewrite H. split; [reflexivity|discriminate].
Qed.

Lemma only_link_facts_read_witness :
  SecureJoinVFS "/safe" "a/b" fs_plain_files
  = SecureJoinVFS "/safe" "a/b" fs_plain.
Proof.
  apply (only_link_facts_read "/safe" "a/b" fs_plain fs_plain_files).
  - exact fs_plain_files_same_kind.
  - intros name fi Hl Hs.
    pose proof (fs_plain_no_symlink name) as H. unfold no_symlink_at in H.
    rewrite Hl in H. congruence.
Defined.
